(** * detect.py: real-time sign detection, the recognition and debounce pipeline

    A shallow embedding of [src/detect.py]: the landmark normalizer
    ([preprocess_landmarks]), the label vocabulary loader ([load_labels]), the
    model resolution ([load_model]), the classification adapter (lines 146-149
    of [main]) and the frame loop with its speech gate (lines 123-185).

    Numbers.  Python floats are modelled by exact canonical rationals [Qc]:
    every statement below is about exact arithmetic.  Pixel coordinates are
    integers in the program ([extract_landmarks] truncates with [int]); they
    embed in [Qc], and integer subtraction, [abs] and [max] are exact there.

    Faults.  A Python exception is a value [Raise e] of the [result] type.
    [ModelLoadError] stands for whatever [keras.models.load_model] raises on
    a file it cannot load: its class depends on the Keras version and on the
    file name. *)

From Stdlib Require Import List Bool Arith ZArith QArith Qcanon Qcabs Lia.
From Stdlib Require Import String Ascii DecimalString.
Import ListNotations.

Local Open Scope Qc_scope.

(** ** Python results *)

Module Py.

Inductive exn : Type :=
| IndexError
| ZeroDivisionError
| ValueError
| AttributeError
| JSONDecodeError
| UnicodeDecodeError
| IsADirectoryError
| PermissionError
| RecursionError
| ModelLoadError
| FileNotFoundError (msg : string)
| RuntimeError (msg : string).

Inductive result (A : Type) : Type :=
| Ok (a : A)
| Raise (e : exn).

Arguments Ok {A} a.
Arguments Raise {A} e.

Definition bind {A B : Type} (r : result A) (k : A -> result B) : result B :=
  match r with
  | Ok a => k a
  | Raise e => Raise e
  end.

(** A list comprehension whose body can raise: the first fault wins. *)
Fixpoint traverse {A B : Type} (f : A -> result B) (l : list A) : result (list B) :=
  match l with
  | [] => Ok []
  | a :: l' =>
      bind (f a) (fun b => bind (traverse f l') (fun bs => Ok (b :: bs)))
  end.

End Py.

Import Py.

Notation "x <- r ;; k" := (Py.bind r (fun x => k))
  (at level 61, r at next level, right associativity).

(** ** Comparisons, [abs], [max] and [/] on numbers *)

Definition Qcleb (x y : Qc) : bool := Qle_bool x y.
Definition Qcltb (x y : Qc) : bool := negb (Qle_bool y x).
Definition Qceqb (x y : Qc) : bool := Qc_eq_bool x y.

(** [a / b]: true division, [ZeroDivisionError] on a zero divisor. *)
Definition py_div (a b : Qc) : result Qc :=
  if Qceqb b 0 then Raise ZeroDivisionError else Ok (a / b).

(** One step of [max]: the running maximum [m] is replaced only by a
    strictly greater item. *)
Definition max2 (m v : Qc) : Qc := if Qcltb m v then v else m.

(** [max(iterable)]; [ValueError] on an empty iterable. *)
Definition py_max (l : list Qc) : result Qc :=
  match l with
  | [] => Raise ValueError
  | x :: xs => Ok (fold_left max2 xs x)
  end.

(** Building numbers from decimal literals and from integers. *)
Definition qc (num : Z) (den : positive) : Qc := Q2Qc (num # den).
Definition ofZ (z : Z) : Qc := Q2Qc (inject_Z z).

(** [int(q)]: truncation toward zero. *)
Definition py_int (q : Qc) : Z := Z.quot (Qnum q) (Zpos (Qden q)).

(** ** Pixel landmarks (lines 44-51) *)

Definition point : Type := (Qc * Qc)%type.

(** A detector landmark: coordinates as fractions of the image size. *)
Module Landmark.

Record t : Type := mk { x : Qc; y : Qc }.

End Landmark.

Definition extract_landmarks (img_width img_height : Z)
    (hand_landmarks : list Landmark.t) : list point :=
  map (fun landmark =>
         (ofZ (Z.min (py_int (Landmark.x landmark * ofZ img_width)) (img_width - 1)),
          ofZ (Z.min (py_int (Landmark.y landmark * ofZ img_height)) (img_height - 1))))
      hand_landmarks.

(** ** Landmark normalizer (lines 54-60) *)

(** [itertools.chain.from_iterable] over the two-element lists [[x, y]]. *)
Definition chain_from_iterable (pts : list point) : list Qc :=
  flat_map (fun p => [fst p; snd p]) pts.

(** Line 56, the coordinates relative to the base point. *)
Definition relative (base_x base_y : Qc) (landmarks : list point) : list point :=
  map (fun p => (fst p - base_x, snd p - base_y)) landmarks.

Definition preprocess_landmarks (landmarks : list point) : result (list Qc) :=
  match landmarks with
  | [] => Raise IndexError                        (* landmarks[0] *)
  | (base_x, base_y) :: _ =>
      let relative_landmarks := relative base_x base_y landmarks in
      let flattened := chain_from_iterable relative_landmarks in
      max_val <- (match flattened with
                  | [] => Ok 1
                  | _ :: _ => py_max (map Qcabs flattened)
                  end) ;;
      if negb (Qceqb max_val 0)
      then traverse (fun val => py_div val max_val) flattened
      else Ok flattened
  end.

(** The transformations of the input the invariance properties speak of. *)
Definition shift (dx dy : Qc) (L : list point) : list point :=
  map (fun p => (fst p + dx, snd p + dy)) L.

Definition scale (k : Qc) (L : list point) : list point :=
  map (fun p => (k * fst p, k * snd p)) L.

(** ** Python values that [json.load] can produce *)

#[local] Set Warnings "-register-all".

Inductive pyval : Type :=
| PNone
| PBool (b : bool)
| PInt (z : Z)
| PFloat (q : Qc)
| PStr (s : string)
| PList (l : list pyval)
| PDict (d : list (string * pyval)).

(** [d.get(k)] on the items of a dict, [None] when the key is absent. *)
Fixpoint dict_get {A : Type} (d : list (string * A)) (k : string) : option A :=
  match d with
  | [] => None
  | (k', v) :: d' => if String.eqb k' k then Some v else dict_get d' k
  end.

(** Truth value testing: [None], [False], zero, and empty strings and
    containers are false. *)
Definition py_truthy (v : pyval) : bool :=
  match v with
  | PNone => false
  | PBool b => b
  | PInt z => negb (Z.eqb z 0)
  | PFloat q => negb (Qceqb q 0)
  | PStr s => negb (String.eqb s EmptyString)
  | PList l => match l with [] => false | _ :: _ => true end
  | PDict d => match d with [] => false | _ :: _ => true end
  end.

(** The number a value stands for in a comparison ([True == 1 == 1.0]). *)
Definition py_num (v : pyval) : option Qc :=
  match v with
  | PBool b => Some (if b then 1 else 0)
  | PInt z => Some (ofZ z)
  | PFloat q => Some q
  | _ => None
  end.

(** [a == b]. *)
Fixpoint py_eqb (a b : pyval) {struct a} : bool :=
  match a, b with
  | PNone, PNone => true
  | PStr s, PStr t => String.eqb s t
  | PList l, PList m =>
      (fix go (l : list pyval) (m : list pyval) {struct l} : bool :=
         match l, m with
         | [], [] => true
         | x :: l', y :: m' => py_eqb x y && go l' m'
         | _, _ => false
         end) l m
  | PDict d, PDict e =>
      Nat.eqb (List.length d) (List.length e) &&
      (fix go (d : list (string * pyval)) {struct d} : bool :=
         match d with
         | [] => true
         | (k, v) :: d' =>
             match dict_get e k with
             | Some w => py_eqb v w
             | None => false
             end && go d'
         end) d
  | _, _ =>
      match py_num a, py_num b with
      | Some x, Some y => Qceqb x y
      | _, _ => false
      end
  end.

(** [a != b]. *)
Definition py_neb (a b : pyval) : bool := negb (py_eqb a b).

(** [str(i)] for a non-negative integer. *)
Definition py_str (i : nat) : string := NilEmpty.string_of_uint (Nat.to_uint i).

(** [l[i]] for a non-negative index. *)
Definition py_index {A : Type} (l : list A) (i : nat) : result A :=
  match nth_error l i with
  | Some a => Ok a
  | None => Raise IndexError
  end.

(** [needle in hay] on strings. *)
Fixpoint contains (needle hay : string) : bool :=
  String.prefix needle hay ||
  match hay with
  | EmptyString => false
  | String _ hay' => contains needle hay'
  end.

(** ** The file system the loaders read *)

(** What is at a path.  [JsonFile data] is a text file that [json.load]
    parses to [data].  [OtherFile e saved_model] is anything else (an empty
    or garbled file, a binary file, a directory, a file that may not be
    read): opening and parsing it as JSON raises [e], and [saved_model] tells
    whether it is a model [keras.models.load_model] can load. *)
Inductive file : Type :=
| JsonFile (data : pyval)
| OtherFile (e : exn) (saved_model : bool).

Definition filesystem : Type := string -> option file.

Definition os_path_exists (fs : filesystem) (path : string) : bool :=
  match fs path with
  | Some _ => true
  | None => false
  end.

(** Lines 23-24: [open] and [json.load], whose exceptions are not caught. *)
Definition json_load (f : file) : result pyval :=
  match f with
  | JsonFile data => Ok data
  | OtherFile e _ => Raise e
  end.

(** [data.get(key)]: only a dict has the method. *)
Definition py_get (data : pyval) (key : string) : result pyval :=
  match data with
  | PDict d =>
      match dict_get d key with
      | Some v => Ok v
      | None => Ok PNone
      end
  | _ => Raise AttributeError
  end.

(** ** Label vocabulary (lines 21-29) *)

Definition ascii_uppercase : string := "ABCDEFGHIJKLMNOPQRSTUVWXYZ".

Definition default_vocabulary : list pyval :=
  map (fun i => PStr (py_str i)) (seq 1 9)
  ++ map (fun c => PStr (String c EmptyString)) (list_ascii_of_string ascii_uppercase).

Definition load_labels (fs : filesystem) (labels_path : string) : result (list pyval) :=
  match fs labels_path with
  | Some f =>
      data <- json_load f ;;
      classes <- py_get data "classes" ;;
      match classes with
      | PList (c :: cs) => Ok (c :: cs)
      | _ => Ok default_vocabulary
      end
  | None => Ok default_vocabulary
  end.

(** ** Model resolution (lines 32-41) *)

(** What [keras.models.load_model(path)] hands back: the model read from
    [path]. *)
Inductive model_handle : Type :=
| LoadedFrom (path : string).

Definition model_not_found (model_path : string) : string :=
  ("Model not found: " ++ model_path ++ ". Train first or provide --model path.")%string.

(** [keras.models.load_model(path)]: the model when a saved model is at
    [path], an exception otherwise. *)
Definition is_saved_model (f : file) : bool :=
  match f with
  | JsonFile _ => false
  | OtherFile _ saved_model => saved_model
  end.

Definition keras_load_model (fs : filesystem) (path : string) : result model_handle :=
  match fs path with
  | Some f => if is_saved_model f then Ok (LoadedFrom path) else Raise ModelLoadError
  | None => Raise ModelLoadError
  end.

Definition load_model (fs : filesystem) (model_path : string) : result model_handle :=
  if negb (os_path_exists fs model_path) then
    let h5_fallback := "model_v2.h5"%string in
    if os_path_exists fs h5_fallback then keras_load_model fs h5_fallback
    else Raise (FileNotFoundError (model_not_found model_path))
  else keras_load_model fs model_path.

(** ** Classification adapter (lines 146-149) *)

(** [np.argmax]: the first index of the greatest entry; [ValueError] on an
    empty array. *)
Fixpoint argmax_from (xs : list Qc) (best : Qc) (best_i i : nat) : nat :=
  match xs with
  | [] => best_i
  | v :: xs' =>
      if Qcltb best v then argmax_from xs' v i (S i)
      else argmax_from xs' best best_i (S i)
  end.

Definition np_argmax (probs : list Qc) : result nat :=
  match probs with
  | [] => Raise ValueError
  | p :: ps => Ok (argmax_from ps p 0%nat 1%nat)
  end.

Definition classify (labels : list pyval) (probs : list Qc) : result (pyval * Qc) :=
  idx <- np_argmax probs ;;
  predicted_label <- (if (idx <? List.length labels)%nat
                      then py_index labels idx
                      else Ok (PStr (py_str idx))) ;;
  confidence <- py_index probs idx ;;
  Ok (predicted_label, confidence).

(** ** Command line (lines 81-90) *)

Module Args.

Record t : Type := mk {
  model : string;
  labels : string;
  camera : Z;
  conf : Qc;
  min_det : Qc;
  min_track : Qc;
  no_audio : bool
}.

(** The defaults [parse_args] installs. *)
Definition default : t :=
  {| model := "model.keras";
     labels := "labels.json";
     camera := 0;
     conf := qc 80 100;
     min_det := qc 5 10;
     min_track := qc 5 10;
     no_audio := false |}.

End Args.

(** ** Start-up (lines 94-111) *)

(** The vocabulary and the model are loaded, in this order, then the camera
    is opened; a failure of the audio mixer is only printed. *)
Definition startup (fs : filesystem) (cap_is_opened : bool) (args : Args.t)
    : result (list pyval * model_handle) :=
  labels <- load_labels fs (Args.labels args) ;;
  model <- load_model fs (Args.model args) ;;
  if negb cap_is_opened
  then Raise (RuntimeError "Cannot access webcam. Check permissions.")
  else Ok (labels, model).

(** ** Frame loop (lines 113-185) *)

(** The two variables the speech gate reads and writes. *)
Record stabilizer : Type := mkStabilizer {
  last_label : pyval;
  last_change_time : Qc
}.

(** Lines 113-114. *)
Definition initial_stabilizer : stabilizer :=
  {| last_label := PNone; last_change_time := 0 |}.

(** The refractory interval, the literal of line 182. *)
Definition refractory : Qc := qc 75 100.

(** Lines 180-185: the new variables, and the text handed to [speak] if any. *)
Definition speech_gate (args : Args.t) (st : stabilizer)
    (predicted_label : pyval) (confidence now : Qc) : stabilizer * option pyval :=
  if negb (Args.no_audio args) && py_truthy predicted_label
     && Qcleb (Args.conf args) confidence
  then
    if py_neb predicted_label (last_label st)
       && Qcltb refractory (now - last_change_time st)
    then ({| last_label := predicted_label; last_change_time := now |},
          Some predicted_label)
    else (st, None)
  else (st, None).

(** What one iteration receives from its collaborators: whether [cap.read]
    delivered a frame, the clock, the size of the image, the landmarks of
    each detected hand and the code [cv2.waitKey] returns. *)
Record frame : Type := mkFrame {
  ok : bool;
  now : Qc;
  img_width : Z;
  img_height : Z;
  multi_hand_landmarks : list (list Landmark.t);
  key : Z
}.

Record iteration : Type := mkIteration {
  next : stabilizer;
  spoken : option pyval;
  exited : bool
}.

(** Lines 124-185, one pass of the [while True] body.  [model] stands for
    [model.predict(...)[0]]. *)
Definition loop_body (args : Args.t) (labels : list pyval)
    (model : list Qc -> list Qc) (st : stabilizer) (f : frame) : result iteration :=
  if negb (ok f) then Ok (mkIteration st None false)          (* continue *)
  else
    obs <- (match multi_hand_landmarks f with
            | [] => Ok (PStr EmptyString, 0)
            | hand_landmarks :: _ =>
                let landmarks :=
                  extract_landmarks (img_width f) (img_height f) hand_landmarks in
                features <- preprocess_landmarks landmarks ;;
                classify labels (model features)
            end) ;;
    if Z.eqb (Z.land (key f) 255) 27 then Ok (mkIteration st None true)   (* break *)
    else
      let (st', said) := speech_gate args st (fst obs) (snd obs) (now f) in
      Ok (mkIteration st' said false).

Inductive run_status : Type :=
| Running
| Exited
| Faulted (e : exn).

Record run : Type := mkRun {
  final : stabilizer;
  speech : list pyval;
  status : run_status
}.

(** The loop over the frames delivered so far: the stabilizer at the end,
    everything spoken, and how the loop stands. *)
Fixpoint main_loop (args : Args.t) (labels : list pyval)
    (model : list Qc -> list Qc) (st : stabilizer) (frames : list frame) : run :=
  match frames with
  | [] => mkRun st [] Running
  | f :: frames' =>
      match loop_body args labels model st f with
      | Raise e => mkRun st [] (Faulted e)
      | Ok it =>
          if exited it then mkRun (next it) [] Exited
          else
            let r := main_loop args labels model (next it) frames' in
            mkRun (final r)
                  (match spoken it with Some l => l :: speech r | None => speech r end)
                  (status r)
      end
  end.

(** The stabilizer after each frame of a run, in order. *)
Fixpoint stabilizer_trace (args : Args.t) (labels : list pyval)
    (model : list Qc -> list Qc) (st : stabilizer) (frames : list frame)
    : list stabilizer :=
  match frames with
  | [] => []
  | f :: frames' =>
      match loop_body args labels model st f with
      | Raise e => []
      | Ok it =>
          next it ::
          (if exited it then []
           else stabilizer_trace args labels model (next it) frames')
      end
  end.

(** ** Vocabulary sources, by what [load_labels] tests (line 26) *)

(** [isinstance(classes, list) and classes]. *)
Definition nonempty_list (classes : pyval) : bool :=
  match classes with
  | PList (_ :: _) => true
  | _ => false
  end.

Definition is_str (v : pyval) : bool :=
  match v with
  | PStr _ => true
  | _ => false
  end.

(** A non-empty ordered sequence of strings. *)
Definition nonempty_string_list (classes : pyval) : bool :=
  match classes with
  | PList (c :: cs) => forallb is_str (c :: cs)
  | _ => false
  end.

(** ** Sample inputs *)

Definition sample_hand : list point := [(ofZ 1, ofZ 2); (ofZ 4, ofZ 6)].

(** A file system holding nothing. *)
Definition empty_fs : filesystem := fun _ => None.

(** A file system holding one file. *)
Definition single_file (path : string) (f : file) : filesystem :=
  fun p => if String.eqb p path then Some f else None.

(** A labels file whose classes are numbers. *)
Definition numeric_labels : file :=
  JsonFile (PDict [("classes"%string, PList [PInt 1; PInt 2])]).

(** The sources on which the vocabulary is well formed: the file exists,
    parses to an object, and its classes field is a non-empty ordered
    sequence of strings. *)
Definition labels_well_formed (source : option file) : bool :=
  match source with
  | Some (JsonFile (PDict d)) =>
      match dict_get d "classes" with
      | Some classes => nonempty_string_list classes
      | None => false
      end
  | _ => false
  end.

(** An empty file: [json.load] finds no value in it. *)
Definition empty_file : file := OtherFile JSONDecodeError false.

(** A binary file that is not valid UTF-8 and is no model. *)
Definition binary_file : file := OtherFile UnicodeDecodeError false.

(** A saved Keras model. *)
Definition saved_model : file := OtherFile UnicodeDecodeError true.

(** A labels file without classes. *)
Definition unlabelled : file :=
  JsonFile (PDict [("names"%string, PList [PStr "A"; PStr "B"])]).

(** A classifier that always answers with the same two-channel distribution. *)
Definition constant_model (features : list Qc) : list Qc := [qc 1 10; qc 9 10].

Definition muted : Args.t :=
  {| Args.model := Args.model Args.default;
     Args.labels := Args.labels Args.default;
     Args.camera := Args.camera Args.default;
     Args.conf := Args.conf Args.default;
     Args.min_det := Args.min_det Args.default;
     Args.min_track := Args.min_track Args.default;
     Args.no_audio := true |}.

(** What the detector reports for a hand: two landmarks, as fractions. *)
Definition sample_detection : list Landmark.t :=
  [Landmark.mk (qc 1 10) (qc 2 10); Landmark.mk (qc 4 10) (qc 6 10)].

(** A 640 x 480 frame with one hand in view and no key pressed. *)
Definition hand_frame (t : Qc) : frame :=
  {| ok := true; now := t; img_width := 640; img_height := 480;
     multi_hand_landmarks := [sample_detection]; key := (-1)%Z |}.

(** ** Frame rate (line 130) *)

(** [1.0 / max(1e-3, now - last_frame_time)]. *)
Definition fps (now last_frame_time : Qc) : result Qc :=
  py_div 1 (max2 (qc 1 1000) (now - last_frame_time)).

(** ** Speech (lines 63-78) *)

Module Speech.

(** [speak] only talks to its collaborators, so it is modelled by the
    events it causes, given how each of their calls ends.  The mixer is taken
    to fall silent after finitely many polls, and only exceptions below
    [Exception] are considered (the ones the handler of line 77 catches). *)

(** How a call into the speech libraries or the operating system ends. *)
Inductive ending : Type :=
| Returns
| RaisesOSError (msg : string)
| RaisesOther (msg : string).

(** What the collaborators of one [speak] call do, in call order: the
    temporary file and its name, [gTTS(...)], [tts.save], [music.load],
    [music.play], how many times [get_busy] answers true before it answers
    false, and [os.remove]. *)
Record world : Type := mkWorld {
  named_temporary_file : ending;
  filename : string;
  gtts : ending;
  save : ending;
  music_load : ending;
  music_play : ending;
  busy_polls : nat;
  os_remove : ending
}.

(** What [speak] does to the outside, in order. *)
Inductive event : Type :=
| Created (name : string)
| Saved (text : pyval) (name : string)
| Loaded (name : string)
| Played
| Tick
| Removed (name : string)
| Printed (msg : string).

Definition message (e : ending) : string :=
  match e with
  | Returns => EmptyString
  | RaisesOSError msg => msg
  | RaisesOther msg => msg
  end.

(** The handler of line 77. *)
Definition tts_error (e : ending) : list event :=
  [Printed ("TTS error: " ++ message e)].

(** A call inside the outer [try]: on success the event [ev] happens and
    [rest] follows; any exception goes to the handler. *)
Definition call (e : ending) (ev : list event) (rest : list event) : list event :=
  match e with
  | Returns => ev ++ rest
  | _ => tts_error e
  end.

Definition speak (w : world) (text : pyval) : list event :=
  call (named_temporary_file w) [Created (filename w)]
    (call (gtts w) []
       (call (save w) [Saved text (filename w)]
          (call (music_load w) [Loaded (filename w)]
             (call (music_play w) [Played]
                (repeat Tick (busy_polls w)
                 ++ match os_remove w with
                    | Returns => [Removed (filename w)]
                    | RaisesOSError _ => []                 (* except OSError: pass *)
                    | RaisesOther _ => tts_error (os_remove w)
                    end))))).

Definition is_removed (ev : event) : bool :=
  match ev with
  | Removed _ => true
  | _ => false
  end.

Definition is_printed (ev : event) : bool :=
  match ev with
  | Printed _ => true
  | _ => false
  end.

Definition is_created (ev : event) : bool :=
  match ev with
  | Created _ => true
  | _ => false
  end.

(** Every call up to and including [music.play] returns. *)
Definition plays (w : world) : bool :=
  match named_temporary_file w, gtts w, save w, music_load w, music_play w with
  | Returns, Returns, Returns, Returns, Returns => true
  | _, _, _, _, _ => false
  end.

End Speech.

(** ** Runs, observed *)

(** No entry of [said] equals the one before it, [prev] being the one before
    the first. *)
Fixpoint changes (prev : pyval) (said : list pyval) : bool :=
  match said with
  | [] => true
  | l :: said' => py_neb l prev && changes l said'
  end.

(** The landmarks a pixel grid of the given size holds: integer coordinates
    from 0 to the size minus one. *)
Definition in_image (img_width img_height : Z) (p : point) : Prop :=
  exists px py : Z,
    p = (ofZ px, ofZ py) /\
    (0 <= px <= img_width - 1)%Z /\ (0 <= py <= img_height - 1)%Z.

(** A world in which synthesis fails, and one in which everything works. *)
Definition offline : Speech.world :=
  {| Speech.named_temporary_file := Speech.Returns;
     Speech.filename := "/tmp/tmpab12.mp3";
     Speech.gtts := Speech.Returns;
     Speech.save := Speech.RaisesOther "Failed to connect";
     Speech.music_load := Speech.Returns;
     Speech.music_play := Speech.Returns;
     Speech.busy_polls := 3;
     Speech.os_remove := Speech.Returns |}.

Definition online : Speech.world :=
  {| Speech.named_temporary_file := Speech.Returns;
     Speech.filename := "/tmp/tmpab12.mp3";
     Speech.gtts := Speech.Returns;
     Speech.save := Speech.Returns;
     Speech.music_load := Speech.Returns;
     Speech.music_play := Speech.Returns;
     Speech.busy_polls := 3;
     Speech.os_remove := Speech.Returns |}.

(** A frame whose capture failed. *)
Definition dropped_frame : frame :=
  {| ok := false; now := 0; img_width := 0; img_height := 0;
     multi_hand_landmarks := []; key := (-1)%Z |}.

(** A frame with a hand in view during which Escape is pressed. *)
Definition escape_frame (t : Qc) : frame :=
  {| ok := true; now := t; img_width := 640; img_height := 480;
     multi_hand_landmarks := [sample_detection]; key := 27%Z |}.

(** A labels file whose top level is a list, not an object. *)
Definition bare_list_labels : file :=
  JsonFile (PList [PStr "A"; PStr "B"]).

(** A detection with a landmark on the right edge of the image. *)
Definition edge_detection : list Landmark.t :=
  [Landmark.mk 1 (qc 1 2)].

(** * Properties *)

(** ** Comparisons *)

Lemma Qceqb_eq (x y : Qc) : Qceqb x y = true <-> x = y.
Proof.
  unfold Qceqb, Qc_eq_bool.
  destruct (Qc_eq_dec x y) as [E | N]; split; intro H;
    try assumption; try reflexivity; try discriminate.
  contradiction.
Qed.

Lemma Qceqb_neq (x y : Qc) : Qceqb x y = false <-> x <> y.
Proof.
  rewrite <- Qceqb_eq. destruct (Qceqb x y); split; congruence.
Qed.

Lemma Qceqb_refl (x : Qc) : Qceqb x x = true.
Proof. apply Qceqb_eq. reflexivity. Qed.

Lemma Qcleb_le (x y : Qc) : Qcleb x y = true <-> x <= y.
Proof. unfold Qcleb, Qcle. apply Qle_bool_iff. Qed.

Lemma Qcltb_lt (x y : Qc) : Qcltb x y = true <-> x < y.
Proof.
  unfold Qcltb. rewrite negb_true_iff.
  split; intro H.
  - apply Qcnot_le_lt. intro L. apply Qcleb_le in L. unfold Qcleb in L. congruence.
  - destruct (Qle_bool y x) eqn:E; [| reflexivity].
    apply Qle_bool_iff in E. exfalso. exact (Qclt_not_le _ _ H E).
Qed.

Lemma Qcltb_ge (x y : Qc) : Qcltb x y = false <-> y <= x.
Proof.
  unfold Qcltb. rewrite negb_false_iff. apply Qcleb_le.
Qed.

Lemma Qcmult_lt_compat_l (k x y : Qc) : 0 < k -> x < y -> k * x < k * y.
Proof.
  intros Hk Hxy. rewrite (Qcmult_comm k x), (Qcmult_comm k y).
  now apply Qcmult_lt_compat_r.
Qed.

Lemma Qcmult_le_compat_l (k x y : Qc) : 0 <= k -> x <= y -> k * x <= k * y.
Proof.
  intros Hk Hxy. rewrite (Qcmult_comm k x), (Qcmult_comm k y).
  now apply Qcmult_le_compat_r.
Qed.

Lemma Qcltb_scale (k x y : Qc) : 0 < k -> Qcltb (k * x) (k * y) = Qcltb x y.
Proof.
  intro Hk. destruct (Qcltb x y) eqn:E.
  - apply Qcltb_lt. apply Qcltb_lt in E. now apply Qcmult_lt_compat_l.
  - apply Qcltb_ge. apply Qcltb_ge in E.
    apply Qcmult_le_compat_l; [now apply Qclt_le_weak | assumption].
Qed.

Lemma Qcinv_pos (m : Qc) : 0 < m -> 0 < / m.
Proof.
  intro Hm.
  destruct (Qclt_le_dec 0 (/ m)) as [P | N]; [assumption | exfalso].
  assert (Hne : m <> 0) by (intro E; subst m; exact (Qclt_not_eq _ _ Hm eq_refl)).
  assert (H1 : / m * m <= 0 * m)
    by (apply Qcmult_le_compat_r; [assumption | now apply Qclt_le_weak]).
  rewrite Qcmult_inv_l, Qcmult_0_l in H1 by assumption.
  revert H1. apply Qclt_not_le. reflexivity.
Qed.

(** ** The running maximum *)

Lemma max2_scale (k m v : Qc) : 0 < k -> max2 (k * m) (k * v) = k * max2 m v.
Proof.
  intro Hk. unfold max2. rewrite Qcltb_scale by assumption.
  destruct (Qcltb m v); reflexivity.
Qed.

Lemma fold_max2_scale (k : Qc) (xs : list Qc) :
  0 < k ->
  forall x, fold_left max2 (map (Qcmult k) xs) (k * x) = k * fold_left max2 xs x.
Proof.
  intro Hk. induction xs as [| v xs IH]; intro x; simpl.
  - reflexivity.
  - rewrite max2_scale by assumption. apply IH.
Qed.

Lemma max2_ge_l (m v : Qc) : m <= max2 m v.
Proof.
  unfold max2. destruct (Qcltb m v) eqn:E.
  - apply Qclt_le_weak. now apply Qcltb_lt.
  - apply Qcle_refl.
Qed.

Lemma max2_ge_r (m v : Qc) : v <= max2 m v.
Proof.
  unfold max2. destruct (Qcltb m v) eqn:E.
  - apply Qcle_refl.
  - now apply Qcltb_ge.
Qed.

Lemma fold_max2_ge_init (xs : list Qc) : forall x, x <= fold_left max2 xs x.
Proof.
  induction xs as [| v xs IH]; intro x; simpl.
  - apply Qcle_refl.
  - eapply Qcle_trans; [apply (max2_ge_l x v) | apply IH].
Qed.

Lemma fold_max2_upper (xs : list Qc) :
  forall x v, In v (x :: xs) -> v <= fold_left max2 xs x.
Proof.
  induction xs as [| w xs IH]; intros x v Hin.
  - destruct Hin as [<- | []]. apply Qcle_refl.
  - simpl. destruct Hin as [E | [E | Hin]]; try subst v.
    + eapply Qcle_trans; [apply (max2_ge_l x w) | apply fold_max2_ge_init].
    + eapply Qcle_trans; [apply (max2_ge_r x w) | apply fold_max2_ge_init].
    + apply IH. right. assumption.
Qed.

Lemma fold_max2_In (xs : list Qc) : forall x, In (fold_left max2 xs x) (x :: xs).
Proof.
  induction xs as [| w xs IH]; intro x; simpl.
  - left. reflexivity.
  - destruct (IH (max2 x w)) as [E | Hin].
    + unfold max2 in E at 1. destruct (Qcltb x w).
      * right. left. assumption.
      * left. assumption.
    + right. right. assumption.
Qed.

(** The running maximum of a list of zeros is zero, and conversely a zero
    maximum of absolute values forces every entry to be zero. *)
Lemma fold_max2_abs_zero (xs : list Qc) (x : Qc) :
  fold_left max2 (map Qcabs xs) (Qcabs x) = 0 ->
  forall v, In v (x :: xs) -> v = 0.
Proof.
  intros Hm v Hin. apply Qcabs_null. apply Qcle_antisym.
  - rewrite <- Hm. apply fold_max2_upper.
    change (Qcabs x :: map Qcabs xs) with (map Qcabs (x :: xs)).
    now apply in_map.
  - apply Qcabs_nonneg.
Qed.

(** ** Division over a list *)

Lemma traverse_py_div (d : Qc) (l : list Qc) :
  d <> 0 -> Py.traverse (fun v => py_div v d) l = Ok (map (fun v => v / d) l).
Proof.
  intro Hd. induction l as [| v l IH]; simpl.
  - reflexivity.
  - unfold py_div at 1. apply Qceqb_neq in Hd. rewrite Hd. simpl.
    rewrite IH. reflexivity.
Qed.

(** ** The normalizer, equationally *)

Lemma chain_from_iterable_length (pts : list point) :
  List.length (chain_from_iterable pts) = (2 * List.length pts)%nat.
Proof.
  induction pts as [| p pts IH]; simpl in *; [reflexivity | lia].
Qed.

Lemma chain_from_iterable_map (f : Qc -> Qc) (pts : list point) :
  map f (chain_from_iterable pts)
  = chain_from_iterable (map (fun p => (f (fst p), f (snd p))) pts).
Proof.
  induction pts as [| p pts IH]; simpl; [reflexivity | now rewrite IH].
Qed.

(** The output for a list with base point [b]: the flattened relative
    coordinates, divided by their greatest magnitude [m] unless it is zero. *)
Lemma preprocess_landmarks_cons (b : point) (ps : list point) :
  let flattened := chain_from_iterable (relative (fst b) (snd b) (b :: ps)) in
  exists m,
    py_max (map Qcabs flattened) = Ok m /\
    preprocess_landmarks (b :: ps)
    = Ok (if Qceqb m 0 then flattened else map (fun v => v / m) flattened).
Proof.
  destruct b as [bx by_]. intro flattened. subst flattened.
  unfold preprocess_landmarks.
  cbn [relative map chain_from_iterable flat_map fst snd app py_max Py.bind].
  eexists. split; [reflexivity |].
  match goal with |- context [Qceqb ?m 0] => destruct (Qceqb m 0) eqn:E end;
    cbn [negb].
  - reflexivity.
  - apply traverse_py_div. now apply Qceqb_neq.
Qed.

Lemma preprocess_landmarks_total (L : list point) :
  L <> [] -> exists v, preprocess_landmarks L = Ok v.
Proof.
  destruct L as [| b ps]; [congruence | intros _].
  destruct (preprocess_landmarks_cons b ps) as (m & _ & E).
  eexists. exact E.
Qed.

Lemma py_max_scale (k m : Qc) (l : list Qc) :
  0 < k -> py_max l = Ok m -> py_max (map (Qcmult k) l) = Ok (k * m).
Proof.
  intros Hk. destruct l as [| x xs]; simpl; [discriminate |].
  intros [= <-]. now rewrite fold_max2_scale.
Qed.

Lemma py_max_abs_zero (l : list Qc) :
  py_max (map Qcabs l) = Ok 0 -> forall v, In v l -> v = 0.
Proof.
  destruct l as [| x xs]; simpl; [discriminate |].
  intros [= Hm]. now apply fold_max2_abs_zero.
Qed.

Lemma py_max_In (l : list Qc) (m : Qc) : py_max l = Ok m -> In m l.
Proof.
  destruct l as [| x xs]; simpl; [discriminate |].
  intros [= <-]. apply fold_max2_In.
Qed.

Lemma py_max_upper (l : list Qc) (m : Qc) :
  py_max l = Ok m -> forall v, In v l -> v <= m.
Proof.
  destruct l as [| x xs]; simpl; [discriminate |].
  intros [= <-]. apply fold_max2_upper.
Qed.

Lemma map_abs_scale (k : Qc) (l : list Qc) :
  0 < k -> map Qcabs (map (Qcmult k) l) = map (Qcmult k) (map Qcabs l).
Proof.
  intro Hk. rewrite !map_map. apply map_ext. intro v.
  rewrite Qcabs_Qcmult. f_equal. apply Qcabs_pos. now apply Qclt_le_weak.
Qed.

(** ** Translation *)

Lemma relative_shift (dx dy bx by_ : Qc) (L : list point) :
  relative (bx + dx) (by_ + dy) (shift dx dy L) = relative bx by_ L.
Proof.
  unfold relative, shift. rewrite map_map. apply map_ext.
  intros [x y]. cbn [fst snd]. f_equal; ring.
Qed.

Lemma preprocess_landmarks_shift (dx dy : Qc) (L : list point) :
  preprocess_landmarks (shift dx dy L) = preprocess_landmarks L.
Proof.
  destruct L as [| [bx by_] ps]; [reflexivity |].
  unfold preprocess_landmarks.
  change (shift dx dy ((bx, by_) :: ps))
    with ((bx + dx, by_ + dy) :: shift dx dy ps).
  cbv iota beta.
  change ((bx + dx, by_ + dy) :: shift dx dy ps)
    with (shift dx dy ((bx, by_) :: ps)).
  rewrite relative_shift. reflexivity.
Qed.

(** C3.  Translation invariance of the normalizer: for every non-empty
    landmark list [L] and every shift [(dx, dy)], [preprocess_landmarks]
    returns a vector on [L], and returns the same vector on [L] with
    [(dx, dy)] added to every point. *)
Theorem preprocess_landmarks_translation_invariant
    (L : list point) (dx dy : Qc) :
  L <> [] ->
  exists v,
    preprocess_landmarks L = Ok v /\
    preprocess_landmarks (shift dx dy L) = Ok v.
Proof.
  intro HL. destruct (preprocess_landmarks_total L HL) as [v Hv].
  exists v. split; [assumption |].
  rewrite preprocess_landmarks_shift. assumption.
Qed.

(** ** Scaling *)

Lemma relative_scale (k bx by_ : Qc) (L : list point) :
  relative (k * bx) (k * by_) (scale k L)
  = map (fun p => (k * fst p, k * snd p)) (relative bx by_ L).
Proof.
  unfold relative, scale. rewrite !map_map. apply map_ext.
  intros [x y]. cbn [fst snd]. f_equal; ring.
Qed.

Lemma preprocess_landmarks_scale (k : Qc) (L : list point) :
  0 < k -> preprocess_landmarks (scale k L) = preprocess_landmarks L.
Proof.
  intro Hk. destruct L as [| [bx by_] ps]; [reflexivity |].
  assert (Hk0 : k <> 0) by (intro E; subst k; exact (Qclt_not_eq _ _ Hk eq_refl)).
  destruct (preprocess_landmarks_cons (bx, by_) ps) as (m & Hm & E).
  destruct (preprocess_landmarks_cons (k * bx, k * by_) (scale k ps))
    as (m' & Hm' & E').
  cbn [fst snd] in *.
  change ((k * bx, k * by_) :: scale k ps) with (scale k ((bx, by_) :: ps)) in *.
  rewrite relative_scale, <- (chain_from_iterable_map (Qcmult k)) in Hm', E'.
  rewrite map_abs_scale in Hm' by assumption.
  assert (Hmm : Ok m' = Ok (k * m))
    by (etransitivity; [symmetry; exact Hm' | exact (py_max_scale k m _ Hk Hm)]).
  injection Hmm as ->.
  refine (eq_trans E' _). refine (eq_trans _ (eq_sym E)). f_equal.
  destruct (Qceqb m 0) eqn:Z.
  - apply Qceqb_eq in Z. subst m. rewrite Qcmult_0_r, Qceqb_refl.
    refine (eq_trans _ (map_id _)).
    apply map_ext_in. intros v Hin.
    rewrite (py_max_abs_zero _ Hm v Hin). apply Qcmult_0_r.
  - apply Qceqb_neq in Z.
    assert (Hkm : k * m <> 0)
      by (intro P; destruct (Qcmult_integral _ _ P); contradiction).
    apply Qceqb_neq in Hkm. rewrite Hkm. apply Qceqb_neq in Hkm.
    rewrite map_map. apply map_ext. intro v. field. split; assumption.
Qed.

(** C4.  Scale invariance of the normalizer: for every non-empty landmark list
    [L] and every positive scalar [k], [preprocess_landmarks] returns a vector
    on [L], and returns exactly the same vector on [L] with every coordinate
    multiplied by [k]. *)
Theorem preprocess_landmarks_scale_invariant (L : list point) (k : Qc) :
  L <> [] ->
  0 < k ->
  exists v,
    preprocess_landmarks L = Ok v /\
    preprocess_landmarks (scale k L) = Ok v.
Proof.
  intros HL Hk. destruct (preprocess_landmarks_total L HL) as [v Hv].
  exists v. split; [assumption |].
  rewrite preprocess_landmarks_scale by assumption. assumption.
Qed.

Lemma preprocess_landmarks_translation_invariant_witness :
  exists v,
    preprocess_landmarks sample_hand = Ok v /\
    preprocess_landmarks (shift (ofZ 10) (ofZ 20) sample_hand) = Ok v.
Proof.
  apply (preprocess_landmarks_translation_invariant sample_hand (ofZ 10) (ofZ 20)).
  discriminate.
Defined.

Lemma preprocess_landmarks_scale_invariant_witness :
  exists v,
    preprocess_landmarks sample_hand = Ok v /\
    preprocess_landmarks (scale (qc 5 2) sample_hand) = Ok v.
Proof.
  apply (preprocess_landmarks_scale_invariant sample_hand (qc 5 2)).
  - discriminate.
  - reflexivity.
Defined.

(** ** Coinciding points *)

Lemma in_chain_from_iterable (v : Qc) (pts : list point) :
  In v (chain_from_iterable pts) <->
  exists p, In p pts /\ (v = fst p \/ v = snd p).
Proof.
  unfold chain_from_iterable. rewrite in_flat_map. split.
  - intros (p & Hp & [E | [E | []]]); exists p; auto.
  - intros (p & Hp & [E | E]); exists p; simpl; auto.
Qed.

Lemma Qcabs_0 : Qcabs 0 = 0.
Proof. apply Qcabs_pos. apply Qcle_refl. Qed.

Lemma relative_length (bx by_ : Qc) (L : list point) :
  List.length (chain_from_iterable (relative bx by_ L)) = (2 * List.length L)%nat.
Proof.
  rewrite chain_from_iterable_length. unfold relative. now rewrite length_map.
Qed.

(** C5.  A non-empty landmark list whose points all coincide (a one-point
    list in particular) is mapped to the all-zero vector of length [2N]; the
    result is a value, so no [ZeroDivisionError] is raised: the division is
    skipped when the greatest magnitude is zero. *)
Theorem preprocess_landmarks_degenerate (L : list point) :
  L <> [] ->
  (forall p q, In p L -> In q L -> p = q) ->
  preprocess_landmarks L = Ok (repeat 0 (2 * List.length L)).
Proof.
  destruct L as [| b ps]; [congruence | intros _ Hsame].
  destruct (preprocess_landmarks_cons b ps) as (m & Hm & E).
  set (flattened := chain_from_iterable (relative (fst b) (snd b) (b :: ps))) in *.
  assert (Hzero : forall v, In v flattened -> v = 0).
  { intros v Hv. apply in_chain_from_iterable in Hv as (p & Hp & Hv).
    unfold relative in Hp. apply in_map_iff in Hp as (q & <- & Hq).
    rewrite (Hsame q b Hq (or_introl eq_refl)) in Hv. cbn [fst snd] in Hv.
    destruct Hv as [-> | ->]; ring. }
  assert (Hm0 : m = 0).
  { apply py_max_In in Hm. apply in_map_iff in Hm as (v & <- & Hv).
    rewrite (Hzero v Hv). apply Qcabs_0. }
  rewrite E. subst m. rewrite Qceqb_refl. f_equal.
  rewrite <- (relative_length (fst b) (snd b) (b :: ps)). fold flattened.
  apply Forall_eq_repeat. apply Forall_forall. intros v Hv.
  symmetry. now apply Hzero.
Qed.

Lemma preprocess_landmarks_degenerate_witness :
  preprocess_landmarks [(ofZ 7, ofZ 3)] = Ok [0; 0].
Proof.
  apply (preprocess_landmarks_degenerate [(ofZ 7, ofZ 3)]).
  - discriminate.
  - intros p q [<- | []] [<- | []]. reflexivity.
Defined.

(** ** Shape of the output *)

Lemma map_abs_scale_r (c : Qc) (l : list Qc) :
  0 < c ->
  map Qcabs (map (fun v => v * c) l) = map (Qcmult c) (map Qcabs l).
Proof.
  intro Hc. rewrite !map_map. apply map_ext. intro v.
  rewrite Qcabs_Qcmult, Qcmult_comm. f_equal.
  apply Qcabs_pos. now apply Qclt_le_weak.
Qed.

(** C6.  On a non-empty list [b :: ps] of [N] points the normalizer returns
    [2N] numbers: the coordinates relative to [b], x then y, point after
    point, all multiplied by one positive factor.  The first two are [0], and
    when some point differs from [b] the greatest magnitude of the output is
    exactly [1]. *)
Theorem preprocess_landmarks_shape (b : point) (ps : list point) :
  exists (out : list Qc) (c : Qc),
    preprocess_landmarks (b :: ps) = Ok out /\
    List.length out = (2 * List.length (b :: ps))%nat /\
    0 < c /\
    out = chain_from_iterable
            (map (fun p => ((fst p - fst b) * c, (snd p - snd b) * c)) (b :: ps)) /\
    nth_error out 0 = Some 0 /\
    nth_error out 1 = Some 0 /\
    ((exists p, In p ps /\ p <> b) -> py_max (map Qcabs out) = Ok 1).
Proof.
  destruct (preprocess_landmarks_cons b ps) as (m & Hm & E).
  set (flattened := chain_from_iterable (relative (fst b) (snd b) (b :: ps))) in *.
  assert (Hc : exists c, 0 < c /\
             (if Qceqb m 0 then flattened else map (fun v => v / m) flattened)
             = map (fun v => v * c) flattened /\
             (m <> 0 -> c = / m)).
  { destruct (Qceqb m 0) eqn:Z.
    - exists 1. split; [reflexivity | split].
      + refine (eq_trans (eq_sym (map_id _)) _). apply map_ext.
        intro v. now rewrite Qcmult_1_r.
      + apply Qceqb_eq in Z. congruence.
    - exists (/ m). split; [| split; [reflexivity | reflexivity]].
      apply Qcinv_pos. apply Qceqb_neq in Z.
      apply py_max_In in Hm. apply in_map_iff in Hm as (v & Hv & _).
      destruct (Qcle_lt_or_eq 0 m) as [P | P];
        [rewrite <- Hv; apply Qcabs_nonneg | assumption | congruence]. }
  destruct Hc as (c & Hc & Hout & Hcm).
  rewrite Hout in E. clear Hout.
  assert (Hshape : map (fun v => v * c) flattened
                   = chain_from_iterable
                       (map (fun p => ((fst p - fst b) * c, (snd p - snd b) * c))
                            (b :: ps))).
  { unfold flattened, relative.
    rewrite (chain_from_iterable_map (fun v => v * c)), map_map. reflexivity. }
  exists (map (fun v => v * c) flattened), c.
  split; [exact E |].
  split; [rewrite length_map; apply relative_length |].
  split; [exact Hc |].
  split; [exact Hshape |].
  split; [rewrite Hshape; cbn; f_equal; ring |].
  split; [rewrite Hshape; cbn; f_equal; ring |].
  intros (p & Hp & Hne).
  assert (Hm0 : m <> 0).
  { intro Z. subst m. apply Hne.
    assert (Hx : fst p - fst b = 0).
    { apply (py_max_abs_zero _ Hm). apply in_chain_from_iterable.
      exists (fst p - fst b, snd p - snd b). split; [| now left].
      unfold relative. apply (in_map (fun q => (fst q - fst b, snd q - snd b))).
      now right. }
    assert (Hy : snd p - snd b = 0).
    { apply (py_max_abs_zero _ Hm). apply in_chain_from_iterable.
      exists (fst p - fst b, snd p - snd b). split; [| now right].
      unfold relative. apply (in_map (fun q => (fst q - fst b, snd q - snd b))).
      now right. }
    destruct p as [x y], b as [bx by_]. cbn [fst snd] in Hx, Hy.
    f_equal.
    - rewrite <- (Qcplus_0_l bx), <- Hx. ring.
    - rewrite <- (Qcplus_0_l by_), <- Hy. ring. }
  rewrite map_abs_scale_r by assumption.
  rewrite (py_max_scale c m _ Hc Hm). f_equal.
  rewrite (Hcm Hm0). now apply Qcmult_inv_l.
Qed.

Lemma preprocess_landmarks_shape_witness :
  exists out,
    preprocess_landmarks sample_hand = Ok out /\
    List.length out = 4%nat /\
    py_max (map Qcabs out) = Ok 1.
Proof.
  destruct (preprocess_landmarks_shape (ofZ 1, ofZ 2) [(ofZ 4, ofZ 6)])
    as (out & c & E & Hlen & _ & _ & _ & _ & Hmax).
  exists out. split; [exact E |]. split; [exact Hlen |].
  apply Hmax. exists (ofZ 4, ofZ 6). split; [left; reflexivity |].
  intro H. apply (f_equal (fun p => Qnum (this (fst p)))) in H.
  vm_compute in H. discriminate H.
Defined.

(** Equality of evaluated lists of numbers: entry by entry, each as an
    equality of fractions. *)
Ltac qc_list_eq :=
  repeat (apply f_equal2; [apply Qc_is_canon; reflexivity |]); reflexivity.

(** The normalizer on the sample hand, evaluated. *)
Example preprocess_landmarks_sample :
  preprocess_landmarks sample_hand = Ok [0; 0; qc 3 4; 1].
Proof.
  vm_compute. apply f_equal. qc_list_eq.
Qed.

Example preprocess_landmarks_empty :
  preprocess_landmarks [] = Raise IndexError.
Proof. reflexivity. Qed.

(** ** Label vocabulary *)

Lemma default_vocabulary_eq :
  default_vocabulary
  = map PStr
      ["1"; "2"; "3"; "4"; "5"; "6"; "7"; "8"; "9";
       "A"; "B"; "C"; "D"; "E"; "F"; "G"; "H"; "I"; "J"; "K"; "L"; "M";
       "N"; "O"; "P"; "Q"; "R"; "S"; "T"; "U"; "V"; "W"; "X"; "Y"; "Z"]%string.
Proof. reflexivity. Qed.

Lemma load_labels_nonempty_list (fs : filesystem) (labels_path : string)
    (data : pyval) (c : pyval) (cs : list pyval) :
  fs labels_path = Some (JsonFile data) ->
  py_get data "classes" = Ok (PList (c :: cs)) ->
  load_labels fs labels_path = Ok (c :: cs).
Proof.
  intros Hf Hc. unfold load_labels. rewrite Hf. cbn [json_load Py.bind].
  rewrite Hc. reflexivity.
Qed.

Lemma load_labels_unparsable (fs : filesystem) (labels_path : string)
    (e : exn) (m : bool) :
  fs labels_path = Some (OtherFile e m) ->
  load_labels fs labels_path = Raise e.
Proof. intro Hf. unfold load_labels. rewrite Hf. reflexivity. Qed.

Lemma load_labels_not_object (fs : filesystem) (labels_path : string)
    (data : pyval) :
  fs labels_path = Some (JsonFile data) ->
  (forall d, data <> PDict d) ->
  load_labels fs labels_path = Raise AttributeError.
Proof.
  intros Hf Hnd. unfold load_labels. rewrite Hf. cbn [json_load Py.bind].
  destruct data as [| b | z | q | s | l | d]; try reflexivity.
  exfalso. exact (Hnd d eq_refl).
Qed.

(** C7, as stated, fails, in three ways, each on a source that is not a
    well-formed vocabulary: a classes field that is a non-empty list of
    numbers is returned as it is; an empty file makes [json.load] raise; and
    a file whose top level is a list makes [data.get] raise.  None of the
    three yields the default vocabulary. *)
Lemma load_labels_not_always_default :
  ~ (forall (fs : filesystem) (labels_path : string),
        labels_well_formed (fs labels_path) = false ->
        load_labels fs labels_path = Ok default_vocabulary) /\
  (labels_well_formed (Some numeric_labels) = false /\
   load_labels (single_file "labels.json" numeric_labels) "labels.json"
   = Ok [PInt 1; PInt 2]) /\
  (labels_well_formed (Some empty_file) = false /\
   load_labels (single_file "labels.json" empty_file) "labels.json"
   = Raise JSONDecodeError) /\
  (labels_well_formed (Some bare_list_labels) = false /\
   load_labels (single_file "labels.json" bare_list_labels) "labels.json"
   = Raise AttributeError).
Proof.
  split; [| repeat split].
  intro H.
  specialize (H (single_file "labels.json" empty_file) "labels.json"%string eq_refl).
  vm_compute in H. discriminate H.
Qed.

(** C7, amended.  [load_labels] returns the default vocabulary, the 35
    strings "1" to "9" followed by "A" to "Z", when the labels file is
    missing and when it holds a JSON object whose classes field is not a
    non-empty list (absent, empty, or not a list).  A non-empty classes list
    is returned as it is, whatever its entries.  There is no fallback for a
    file that exists but cannot be read as JSON, nor for one whose top level
    is not an object: the exception of [open] or [json.load], or the
    [AttributeError] of [data.get], leaves [load_labels]. *)
Theorem load_labels_fallback (fs : filesystem) (labels_path : string) :
  (fs labels_path = None ->
   load_labels fs labels_path = Ok default_vocabulary) /\
  (forall data classes,
      fs labels_path = Some (JsonFile data) ->
      py_get data "classes" = Ok classes ->
      nonempty_list classes = false ->
      load_labels fs labels_path = Ok default_vocabulary) /\
  (forall data c cs,
      fs labels_path = Some (JsonFile data) ->
      py_get data "classes" = Ok (PList (c :: cs)) ->
      load_labels fs labels_path = Ok (c :: cs)) /\
  (forall data,
      fs labels_path = Some (JsonFile data) ->
      (forall d, data <> PDict d) ->
      load_labels fs labels_path = Raise AttributeError) /\
  (forall e saved,
      fs labels_path = Some (OtherFile e saved) ->
      load_labels fs labels_path = Raise e) /\
  List.length default_vocabulary = 35%nat /\
  default_vocabulary
  = map PStr
      ["1"; "2"; "3"; "4"; "5"; "6"; "7"; "8"; "9";
       "A"; "B"; "C"; "D"; "E"; "F"; "G"; "H"; "I"; "J"; "K"; "L"; "M";
       "N"; "O"; "P"; "Q"; "R"; "S"; "T"; "U"; "V"; "W"; "X"; "Y"; "Z"]%string.
Proof.
  split; [| split; [| split; [| split; [| split; [| split]]]]].
  - intro Hf. unfold load_labels. rewrite Hf. reflexivity.
  - intros data classes Hf Hc Hn. unfold load_labels. rewrite Hf.
    cbn [json_load Py.bind]. rewrite Hc. cbn [Py.bind].
    destruct classes as [| | | | | [| c cs] |]; try reflexivity.
    discriminate Hn.
  - intros data c cs. apply load_labels_nonempty_list.
  - intros data. apply load_labels_not_object.
  - intros e saved. apply load_labels_unparsable.
  - reflexivity.
  - exact default_vocabulary_eq.
Qed.

Lemma load_labels_fallback_witness :
  load_labels empty_fs "labels.json" = Ok default_vocabulary /\
  load_labels (single_file "labels.json" unlabelled) "labels.json"
  = Ok default_vocabulary /\
  load_labels (single_file "labels.json" numeric_labels) "labels.json"
  = Ok [PInt 1; PInt 2] /\
  load_labels (single_file "labels.json" bare_list_labels) "labels.json"
  = Raise AttributeError /\
  load_labels (single_file "labels.json" binary_file) "labels.json"
  = Raise UnicodeDecodeError.
Proof.
  split; [| split; [| split; [| split]]].
  - apply (load_labels_fallback empty_fs "labels.json"). reflexivity.
  - apply (load_labels_fallback (single_file "labels.json" unlabelled) "labels.json")
      with (data := PDict [("names"%string, PList [PStr "A"; PStr "B"])])
           (classes := PNone); reflexivity.
  - apply (load_labels_fallback (single_file "labels.json" numeric_labels) "labels.json")
      with (data := PDict [("classes"%string, PList [PInt 1; PInt 2])]);
      reflexivity.
  - apply (load_labels_fallback (single_file "labels.json" bare_list_labels)
             "labels.json")
      with (data := PList [PStr "A"; PStr "B"]);
      [reflexivity | intros d; discriminate].
  - apply (load_labels_fallback (single_file "labels.json" binary_file) "labels.json")
      with (saved := false). reflexivity.
Defined.

(** ** Model resolution *)

Lemma prefix_app (s t : string) : String.prefix s (s ++ t) = true.
Proof.
  induction s as [| a s IH]; simpl; [destruct t; reflexivity |].
  destruct (ascii_dec a a); [assumption | congruence].
Qed.

Lemma contains_prefix (s hay : string) :
  String.prefix s hay = true -> contains s hay = true.
Proof.
  intro H. destruct hay; cbn [contains]; rewrite H; reflexivity.
Qed.

Lemma contains_app (pre s post : string) :
  contains s (pre ++ s ++ post) = true.
Proof.
  induction pre as [| a pre IH].
  - change (contains s (s ++ post) = true). apply contains_prefix, prefix_app.
  - cbn [String.append contains]. rewrite IH. apply orb_true_r.
Qed.

(** C9, as stated, fails.  With the default primary path and neither file
    present, the message of the error names the primary path but not the
    legacy path [model_v2.h5].  And a primary path that exists is handed to
    [keras.models.load_model] whatever it holds: on a file that is no saved
    model the loader's error is the outcome, nothing is loaded. *)
Lemma load_model_message_omits_fallback :
  ~ (forall (fs : filesystem) (model_path : string),
        os_path_exists fs model_path = false ->
        os_path_exists fs "model_v2.h5" = false ->
        exists msg,
          load_model fs model_path = Raise (FileNotFoundError msg) /\
          contains model_path msg = true /\
          contains "model_v2.h5" msg = true) /\
  (os_path_exists (single_file "model.keras" binary_file) "model.keras" = true /\
   load_model (single_file "model.keras" binary_file) "model.keras"
   = Raise ModelLoadError).
Proof.
  split; [| split; reflexivity].
  intro H.
  destruct (H empty_fs "model.keras"%string eq_refl eq_refl) as (msg & E & _ & C).
  vm_compute in E. injection E as <-.
  vm_compute in C. discriminate C.
Qed.

(** C9, amended.  [load_model] resolves the model in this order.  If the
    primary path exists it is loaded: [keras.models.load_model] is called on
    it and its result, or its error, is the outcome, the legacy file is not
    tried.  Otherwise, if the legacy path [model_v2.h5] exists, that one is
    loaded the same way.  Otherwise [FileNotFoundError] is raised, with the
    message "Model not found: <primary path>. Train first or provide --model
    path.", which names the primary path. *)
Theorem load_model_resolution (fs : filesystem) (model_path : string) :
  (os_path_exists fs model_path = true ->
   load_model fs model_path = keras_load_model fs model_path) /\
  (os_path_exists fs model_path = false ->
   os_path_exists fs "model_v2.h5" = true ->
   load_model fs model_path = keras_load_model fs "model_v2.h5") /\
  (os_path_exists fs model_path = false ->
   os_path_exists fs "model_v2.h5" = false ->
   exists msg,
     load_model fs model_path = Raise (FileNotFoundError msg) /\
     msg = ("Model not found: " ++ model_path
            ++ ". Train first or provide --model path.")%string /\
     contains model_path msg = true) /\
  (forall path f,
      fs path = Some f ->
      keras_load_model fs path
      = if is_saved_model f then Ok (LoadedFrom path) else Raise ModelLoadError).
Proof.
  unfold load_model. split; [| split; [| split]].
  - intros ->. reflexivity.
  - intros -> ->. reflexivity.
  - intros -> ->. exists (model_not_found model_path).
    split; [reflexivity |]. split; [reflexivity |]. apply contains_app.
  - intros path f Hf. unfold keras_load_model. rewrite Hf. reflexivity.
Qed.

Lemma load_model_resolution_witness :
  load_model (fun _ => Some saved_model) "model.keras"
  = Ok (LoadedFrom "model.keras") /\
  load_model (single_file "model_v2.h5" saved_model) "model.keras"
  = Ok (LoadedFrom "model_v2.h5") /\
  load_model (single_file "model.keras" binary_file) "model.keras"
  = Raise ModelLoadError /\
  exists msg,
    load_model empty_fs "model.keras" = Raise (FileNotFoundError msg) /\
    contains "model.keras" msg = true.
Proof.
  split; [| split; [| split]].
  - destruct (load_model_resolution (fun _ => Some saved_model) "model.keras")
      as (H1 & _ & _ & Hk).
    rewrite (H1 eq_refl). exact (Hk "model.keras"%string saved_model eq_refl).
  - destruct (load_model_resolution (single_file "model_v2.h5" saved_model)
                "model.keras") as (_ & H2 & _ & Hk).
    rewrite (H2 eq_refl eq_refl).
    exact (Hk "model_v2.h5"%string saved_model eq_refl).
  - destruct (load_model_resolution (single_file "model.keras" binary_file)
                "model.keras") as (H1 & _ & _ & Hk).
    rewrite (H1 eq_refl). exact (Hk "model.keras"%string binary_file eq_refl).
  - destruct (load_model_resolution empty_fs "model.keras") as (_ & _ & H3 & _).
    destruct (H3 eq_refl eq_refl) as (msg & E & _ & C).
    exists msg. split; assumption.
Defined.

(** ** Classification adapter *)

Lemma argmax_from_spec (xs : list Qc) :
  forall (pre : list Qc) (best : Qc) (best_i : nat),
    nth_error pre best_i = Some best ->
    (forall w, In w pre -> w <= best) ->
    exists v,
      nth_error (pre ++ xs) (argmax_from xs best best_i (List.length pre)) = Some v /\
      (forall w, In w (pre ++ xs) -> w <= v).
Proof.
  induction xs as [| x xs IH]; intros pre best best_i Hnth Hmax.
  - exists best. rewrite app_nil_r. split; assumption.
  - cbn [argmax_from].
    assert (Hlen : List.length (pre ++ [x]) = S (List.length pre))
      by (rewrite length_app; simpl; lia).
    assert (Happ : (pre ++ [x]) ++ xs = pre ++ x :: xs)
      by (rewrite <- app_assoc; reflexivity).
    destruct (Qcltb best x) eqn:E.
    + apply Qcltb_lt in E.
      destruct (IH (pre ++ [x]) x (List.length pre)) as (v & Hv & Hub).
      * rewrite nth_error_app2 by lia. rewrite Nat.sub_diag. reflexivity.
      * intros w Hw. apply in_app_or in Hw as [Hw | [<- | []]].
        -- apply Qclt_le_weak. eapply Qcle_lt_trans; [apply Hmax, Hw | exact E].
        -- apply Qcle_refl.
      * rewrite Hlen, Happ in Hv. rewrite Happ in Hub. exists v. split; assumption.
    + apply Qcltb_ge in E.
      destruct (IH (pre ++ [x]) best best_i) as (v & Hv & Hub).
      * rewrite nth_error_app1; [assumption |].
        apply nth_error_Some. congruence.
      * intros w Hw. apply in_app_or in Hw as [Hw | [<- | []]];
          [apply Hmax, Hw | exact E].
      * rewrite Hlen, Happ in Hv. rewrite Happ in Hub. exists v. split; assumption.
Qed.

Lemma np_argmax_spec (probs : list Qc) :
  probs <> [] ->
  exists idx v,
    np_argmax probs = Ok idx /\
    nth_error probs idx = Some v /\
    (forall w, In w probs -> w <= v).
Proof.
  destruct probs as [| p ps]; [congruence | intros _].
  destruct (argmax_from_spec ps [p] p 0%nat eq_refl) as (v & Hv & Hub).
  - intros w [<- | []]. apply Qcle_refl.
  - exists (argmax_from ps p 0%nat 1%nat), v. repeat split; assumption.
Qed.

Example py_str_35 : py_str 35 = "35"%string.
Proof. reflexivity. Qed.

Example py_str_0 : py_str 0 = "0"%string.
Proof. reflexivity. Qed.

(** C8.  On a non-empty classifier output, with [idx] the index [np.argmax]
    selects, the adapter returns a label and the probability at [idx] without
    raising: the label is the vocabulary entry at [idx] when [idx] is below
    the vocabulary's length, and the decimal string of [idx] otherwise. *)
Theorem classify_resolves_label (labels : list pyval) (probs : list Qc) :
  probs <> [] ->
  exists (idx : nat) (label : pyval) (confidence : Qc),
    np_argmax probs = Ok idx /\
    classify labels probs = Ok (label, confidence) /\
    nth_error probs idx = Some confidence /\
    (forall w, In w probs -> w <= confidence) /\
    ((idx < List.length labels)%nat -> nth_error labels idx = Some label) /\
    ((List.length labels <= idx)%nat -> label = PStr (py_str idx)).
Proof.
  intro Hne. destruct (np_argmax_spec probs Hne) as (idx & v & Ha & Hv & Hub).
  unfold classify. rewrite Ha. cbn [Py.bind].
  destruct (idx <? List.length labels)%nat eqn:E.
  - apply Nat.ltb_lt in E.
    destruct (nth_error labels idx) as [l |] eqn:Hl;
      [| apply nth_error_None in Hl; lia].
    exists idx, l, v. unfold py_index. rewrite Hl, Hv. cbn [Py.bind].
    repeat split; try assumption; try reflexivity. lia.
  - apply Nat.ltb_ge in E.
    exists idx, (PStr (py_str idx)), v. unfold py_index. rewrite Hv. cbn [Py.bind].
    repeat split; try assumption; try reflexivity. lia.
Qed.

Lemma classify_resolves_label_witness :
  classify [PStr "A"] [qc 1 10; qc 9 10] = Ok (PStr "1", qc 9 10).
Proof.
  destruct (classify_resolves_label [PStr "A"] [qc 1 10; qc 9 10])
    as (idx & label & confidence & Ha & Hc & Hn & _ & _ & Hge).
  - discriminate.
  - vm_compute in Ha. injection Ha as <-.
    cbn [nth_error] in Hn. injection Hn as <-.
    rewrite (Hge (le_n 1)) in Hc. exact Hc.
Defined.

(** ** Speech gate *)

Lemma speech_gate_muted (args : Args.t) (st : stabilizer)
    (label : pyval) (confidence t : Qc) :
  Args.no_audio args = true ->
  speech_gate args st label confidence t = (st, None).
Proof. intro H. unfold speech_gate. rewrite H. reflexivity. Qed.

Lemma speech_gate_falsy (args : Args.t) (st : stabilizer)
    (label : pyval) (confidence t : Qc) :
  py_truthy label = false ->
  speech_gate args st label confidence t = (st, None).
Proof.
  intro H. unfold speech_gate. rewrite H.
  destruct (Args.no_audio args); reflexivity.
Qed.

Lemma py_eqb_str (s t : string) : py_eqb (PStr s) (PStr t) = String.eqb s t.
Proof. reflexivity. Qed.

Lemma py_eqb_str_none (s : string) : py_eqb (PStr s) PNone = false.
Proof. reflexivity. Qed.

(** C1, as stated, fails: with [--no_audio] set, an observation that meets
    the confidence, label-change and refractory conditions does not commit. *)
Lemma speech_gate_three_conditions_not_enough :
  ~ (forall (args : Args.t) (st : stabilizer) (label : pyval) (confidence t : Qc),
        snd (speech_gate args st label confidence t) = Some label <->
        (Args.conf args <= confidence /\
         py_neb label (last_label st) = true /\
         refractory < t - last_change_time st)).
Proof.
  intro H.
  destruct (H muted initial_stabilizer (PStr "A") (qc 95 100) 1) as [_ Hfire].
  assert (Hsnd : snd (speech_gate muted initial_stabilizer (PStr "A") (qc 95 100) 1)
                 = Some (PStr "A")).
  { apply Hfire. split; [| split].
    - apply Qcleb_le. reflexivity.
    - reflexivity.
    - apply Qcltb_lt. reflexivity. }
  rewrite speech_gate_muted in Hsnd by reflexivity. discriminate Hsnd.
Qed.

(** C1, amended.  For every observation [(label, confidence, t)] reaching the
    gate, the speech trigger fires, and the state becomes [(label, t)], if and
    only if audio is enabled, the label is truthy (not the empty string), the
    confidence is at least the threshold, the label differs from the last
    committed one, and [t] minus the last commit time exceeds the refractory
    interval; otherwise the state is unchanged and nothing is spoken.  A frame
    with no detected hand leaves the state unchanged and speaks nothing. *)
Theorem speech_gate_fires_iff (args : Args.t) (st : stabilizer)
    (label : pyval) (confidence t : Qc) :
  let fires :=
    Args.no_audio args = false /\
    py_truthy label = true /\
    Args.conf args <= confidence /\
    py_neb label (last_label st) = true /\
    refractory < t - last_change_time st in
  (snd (speech_gate args st label confidence t) = Some label <-> fires) /\
  (fires ->
   speech_gate args st label confidence t
   = ({| last_label := label; last_change_time := t |}, Some label)) /\
  (~ fires -> speech_gate args st label confidence t = (st, None)) /\
  (forall (labels : list pyval) (model : list Qc -> list Qc) (f : frame),
      multi_hand_landmarks f = [] ->
      exists it,
        loop_body args labels model st f = Ok it /\
        next it = st /\ spoken it = None).
Proof.
  intro fires.
  assert (Hyes : fires ->
                 speech_gate args st label confidence t
                 = ({| last_label := label; last_change_time := t |}, Some label)).
  { intros (Ha & Ht & Hc & Hn & Hr). unfold speech_gate.
    apply Qcleb_le in Hc. apply Qcltb_lt in Hr.
    rewrite Ha, Ht, Hc, Hn, Hr. reflexivity. }
  assert (Hno : ~ fires -> speech_gate args st label confidence t = (st, None)).
  { intro Hnot. unfold speech_gate.
    destruct (Args.no_audio args) eqn:Ha; [reflexivity |].
    destruct (py_truthy label) eqn:Ht; [| reflexivity].
    destruct (Qcleb (Args.conf args) confidence) eqn:Hc; [| reflexivity].
    destruct (py_neb label (last_label st)) eqn:Hn; [| reflexivity].
    destruct (Qcltb refractory (t - last_change_time st)) eqn:Hr; [| reflexivity].
    exfalso. apply Hnot. unfold fires.
    apply Qcleb_le in Hc. apply Qcltb_lt in Hr. auto. }
  assert (Hdec : fires \/ ~ fires).
  { unfold fires.
    destruct (Args.no_audio args); [right; intros (? & _); discriminate |].
    destruct (py_truthy label); [| right; intros (_ & ? & _); discriminate].
    destruct (py_neb label (last_label st));
      [| right; intros (_ & _ & _ & ? & _); discriminate].
    destruct (Qcleb (Args.conf args) confidence) eqn:Hc.
    - destruct (Qcltb refractory (t - last_change_time st)) eqn:Hr.
      + left. apply Qcleb_le in Hc. apply Qcltb_lt in Hr. auto.
      + right. intros (_ & _ & _ & _ & Hlt). apply Qcltb_lt in Hlt. congruence.
    - right. intros (_ & _ & Hle & _). apply Qcleb_le in Hle. congruence. }
  split; [| split; [exact Hyes | split; [exact Hno |]]].
  - split.
    + intro Hsnd. destruct Hdec as [Hf | Hf]; [exact Hf |].
      rewrite (Hno Hf) in Hsnd. discriminate Hsnd.
    + intro Hf. rewrite (Hyes Hf). reflexivity.
  - intros labels model f Hhand. unfold loop_body. rewrite Hhand.
    destruct (ok f); cbn [negb Py.bind fst snd].
    + destruct (Z.eqb (Z.land (key f) 255) 27).
      * eexists. split; [reflexivity | split; reflexivity].
      * rewrite speech_gate_falsy by reflexivity.
        eexists. split; [reflexivity | split; reflexivity].
    + eexists. split; [reflexivity | split; reflexivity].
Qed.

Lemma speech_gate_fires_iff_witness :
  speech_gate Args.default initial_stabilizer (PStr "A") (qc 95 100) 1
  = ({| last_label := PStr "A"; last_change_time := 1 |}, Some (PStr "A")).
Proof.
  apply (speech_gate_fires_iff Args.default initial_stabilizer (PStr "A") (qc 95 100) 1).
  split; [reflexivity |]. split; [reflexivity |].
  split; [apply Qcleb_le; reflexivity |].
  split; [reflexivity |]. apply Qcltb_lt. reflexivity.
Defined.

(** ** The debounce scenario *)

(** C2, as stated, fails: the first observation, at [t = 0.0], does not
    commit, because [0.0 - 0.0] does not exceed the refractory interval. *)
Lemma scenario_first_observation_does_not_commit :
  ~ (let a := Args.default in
     let s0 := initial_stabilizer in
     let s1 := {| last_label := PStr "A"; last_change_time := 0 |} in
     let s4 := {| last_label := PStr "B"; last_change_time := qc 9 10 |} in
     speech_gate a s0 (PStr "A") (qc 95 100) 0 = (s1, Some (PStr "A")) /\
     speech_gate a s1 (PStr "A") (qc 95 100) (qc 1 10) = (s1, None) /\
     speech_gate a s1 (PStr "B") (qc 95 100) (qc 2 10) = (s1, None) /\
     speech_gate a s1 (PStr "B") (qc 95 100) (qc 9 10) = (s4, Some (PStr "B")) /\
     speech_gate a s4 (PStr "B") (qc 60 100) (qc 15 10) = (s4, None)).
Proof.
  cbv zeta. intros (H1 & _).
  assert (E : snd (speech_gate Args.default initial_stabilizer (PStr "A") (qc 95 100) 0)
              = None) by reflexivity.
  rewrite H1 in E. discriminate E.
Qed.

(** C2, amended.  From the initial state [(None, 0)], with threshold 0.80 and
    refractory interval 0.75 s, the observations ("A", 0.95, 0.0),
    ("A", 0.95, 0.1), ("B", 0.95, 0.2), ("B", 0.95, 0.9), ("B", 0.60, 1.5)
    produce exactly one commit, ("B", 0.9) at the fourth observation; the
    other four leave the state unchanged. *)
Theorem debounce_scenario :
  let a := Args.default in
  let s0 := initial_stabilizer in
  let s4 := {| last_label := PStr "B"; last_change_time := qc 9 10 |} in
  speech_gate a s0 (PStr "A") (qc 95 100) 0 = (s0, None) /\
  speech_gate a s0 (PStr "A") (qc 95 100) (qc 1 10) = (s0, None) /\
  speech_gate a s0 (PStr "B") (qc 95 100) (qc 2 10) = (s0, None) /\
  speech_gate a s0 (PStr "B") (qc 95 100) (qc 9 10) = (s4, Some (PStr "B")) /\
  speech_gate a s4 (PStr "B") (qc 60 100) (qc 15 10) = (s4, None).
Proof.
  cbv zeta. repeat split; reflexivity.
Qed.

(** ** The loop with audio disabled *)

Lemma loop_body_muted (args : Args.t) (labels : list pyval)
    (model : list Qc -> list Qc) (st : stabilizer) (f : frame) (it : iteration) :
  Args.no_audio args = true ->
  loop_body args labels model st f = Ok it ->
  next it = st /\ spoken it = None.
Proof.
  intros Hmute. unfold loop_body.
  destruct (ok f); cbn [negb]; [| intros [= <-]; split; reflexivity].
  match goal with
  | |- context [Py.bind ?r _] => destruct r as [obs | e]
  end; cbn [Py.bind]; [| discriminate].
  destruct (Z.eqb (Z.land (key f) 255) 27); [intros [= <-]; split; reflexivity |].
  rewrite speech_gate_muted by assumption.
  intros [= <-]. split; reflexivity.
Qed.

Lemma main_loop_muted (args : Args.t) (labels : list pyval)
    (model : list Qc -> list Qc) (frames : list frame) :
  Args.no_audio args = true ->
  forall st,
    final (main_loop args labels model st frames) = st /\
    speech (main_loop args labels model st frames) = [] /\
    Forall (eq st) (stabilizer_trace args labels model st frames).
Proof.
  intro Hmute. induction frames as [| f frames IH]; intro st.
  - repeat split. constructor.
  - cbn [main_loop stabilizer_trace].
    destruct (loop_body args labels model st f) as [it | e] eqn:E.
    + destruct (loop_body_muted _ _ _ _ _ _ Hmute E) as [Hn Hs].
      rewrite Hn, Hs. destruct (IH st) as (Hf & Hsp & Htr).
      destruct (exited it); cbn [final speech].
      * repeat split. constructor; [reflexivity | constructor].
      * repeat split; try assumption. constructor; [reflexivity | assumption].
    + repeat split. constructor.
Qed.

(** C10.  With [--no_audio] set no commit ever fires: after every frame of a
    run the stabilizer is still at its initial value [(None, 0.0)], and
    nothing is spoken. *)
Theorem no_audio_never_commits (args : Args.t) (labels : list pyval)
    (model : list Qc -> list Qc) (frames : list frame) :
  Args.no_audio args = true ->
  final (main_loop args labels model initial_stabilizer frames) = initial_stabilizer /\
  speech (main_loop args labels model initial_stabilizer frames) = [] /\
  Forall (eq initial_stabilizer)
         (stabilizer_trace args labels model initial_stabilizer frames).
Proof.
  intro Hmute. now apply main_loop_muted.
Qed.

Lemma no_audio_never_commits_witness :
  final (main_loop muted [PStr "A"; PStr "B"] constant_model initial_stabilizer
           [hand_frame (ofZ 1); hand_frame (ofZ 2)])
  = initial_stabilizer.
Proof.
  apply (no_audio_never_commits muted [PStr "A"; PStr "B"] constant_model
           [hand_frame (ofZ 1); hand_frame (ofZ 2)]).
  reflexivity.
Defined.

(** The same two frames with audio enabled: the first commits "B". *)
Example main_loop_audible :
  let r := main_loop Args.default [PStr "A"; PStr "B"] constant_model
             initial_stabilizer [hand_frame (ofZ 1); hand_frame (ofZ 2)] in
  final r = {| last_label := PStr "B"; last_change_time := ofZ 1 |} /\
  speech r = [PStr "B"]%list /\
  status r = Running.
Proof.
  cbv zeta. repeat split; reflexivity.
Qed.

(** The default vocabulary resolves channel 9 to "A". *)
Example classify_default_vocabulary :
  classify default_vocabulary
    [0; 0; 0; 0; 0; 0; 0; 0; 0; qc 95 100; qc 5 100]
  = Ok (PStr "A", qc 95 100).
Proof. reflexivity. Qed.

(** ** Start-up and pixel landmarks *)

(** The error of [load_model] is not caught: it ends [main]. *)
Lemma startup_model_missing (fs : filesystem) (cap_is_opened : bool)
    (args : Args.t) (labels : list pyval) :
  load_labels fs (Args.labels args) = Ok labels ->
  os_path_exists fs (Args.model args) = false ->
  os_path_exists fs "model_v2.h5" = false ->
  startup fs cap_is_opened args
  = Raise (FileNotFoundError (model_not_found (Args.model args))).
Proof.
  intros Hl Hp Hf. unfold startup, load_model.
  rewrite Hl, Hp, Hf. reflexivity.
Qed.

Example startup_nothing_on_disk :
  startup empty_fs true Args.default
  = Raise (FileNotFoundError
             "Model not found: model.keras. Train first or provide --model path.").
Proof. reflexivity. Qed.

Example extract_landmarks_sample :
  extract_landmarks 640 480 sample_detection
  = [(ofZ 64, ofZ 96); (ofZ 256, ofZ 288)]%list.
Proof. vm_compute. reflexivity. Qed.

(** * Further properties of the code *)

(** ** The loaders *)

(** X1.  Whatever [load_labels] returns is a non-empty list: either the
    default vocabulary, or the classes list of the file, unchanged. *)
Theorem load_labels_returns (fs : filesystem) (labels_path : string)
    (labels : list pyval) :
  load_labels fs labels_path = Ok labels ->
  labels <> [] /\
  (labels = default_vocabulary \/
   exists data,
     fs labels_path = Some (JsonFile data) /\
     py_get data "classes" = Ok (PList labels)).
Proof.
  unfold load_labels.
  destruct (fs labels_path) as [[data | e0 m] |] eqn:Hf; cbn [json_load Py.bind].
  - destruct (py_get data "classes") as [classes | e] eqn:Hc; cbn [Py.bind];
      [| discriminate].
    destruct classes as [| | | | | [| c cs] |]; intros [= <-];
      try (split; [discriminate | left; reflexivity]).
    split; [discriminate |]. right. exists data. split; [reflexivity | assumption].
  - discriminate.
  - intros [= <-]. split; [discriminate | left; reflexivity].
Qed.

Lemma load_labels_returns_witness :
  [PInt 1; PInt 2] <> [] /\
  ([PInt 1; PInt 2] = default_vocabulary \/
   exists data,
     single_file "labels.json" numeric_labels "labels.json"%string
     = Some (JsonFile data) /\
     py_get data "classes" = Ok (PList [PInt 1; PInt 2])).
Proof.
  apply (load_labels_returns (single_file "labels.json" numeric_labels)
           "labels.json" [PInt 1; PInt 2]).
  reflexivity.
Defined.

(** X2.  [load_labels] catches nothing.  It raises exactly when the file
    exists and either [open] or [json.load] raises on it, in which case that
    exception leaves [load_labels] unchanged, or the file parses to a value
    that is not an object ([AttributeError] from [data.get]).  A missing file
    never raises, and neither does a JSON object, whatever its classes. *)
Theorem load_labels_raises (fs : filesystem) (labels_path : string) (e : exn) :
  load_labels fs labels_path = Raise e <->
  (exists saved, fs labels_path = Some (OtherFile e saved)) \/
  (exists data,
      fs labels_path = Some (JsonFile data) /\
      (forall d, data <> PDict d) /\
      e = AttributeError).
Proof.
  split.
  - unfold load_labels.
    destruct (fs labels_path) as [[data | e0 m] |]; cbn [json_load Py.bind].
    + destruct data as [| b | z | q | s | l | d]; cbn [py_get Py.bind];
        try (intros [= <-]; right; eexists; split; [reflexivity |];
             split; [intros d; discriminate | reflexivity]).
      destruct (dict_get d "classes") as [[| | | | | [| c cs] |] |];
        cbn [Py.bind]; discriminate.
    + intros [= <-]. left. exists m. reflexivity.
    + discriminate.
  - intros [[m Hf] | (data & Hf & Hnd & ->)].
    + exact (load_labels_unparsable _ _ _ _ Hf).
    + exact (load_labels_not_object _ _ _ Hf Hnd).
Qed.

Lemma load_labels_raises_witness :
  load_labels (single_file "labels.json" binary_file) "labels.json"
  = Raise UnicodeDecodeError /\
  load_labels (single_file "labels.json" bare_list_labels) "labels.json"
  = Raise AttributeError.
Proof.
  split.
  - apply (load_labels_raises (single_file "labels.json" binary_file)
             "labels.json" UnicodeDecodeError).
    left. exists false. reflexivity.
  - apply (load_labels_raises (single_file "labels.json" bare_list_labels)
             "labels.json" AttributeError).
    right. exists (PList [PStr "A"; PStr "B"]).
    split; [reflexivity | split; [intros d; discriminate | reflexivity]].
Defined.




(** ** Frame rate *)

Lemma Qclt_0_neq (x : Qc) : 0 < x -> x <> 0.
Proof. intros H E. subst x. exact (Qclt_not_eq _ _ H eq_refl). Qed.

(** X5.  The frame rate is always defined, positive and at most 1000,
    whatever the two clock readings are: equal readings, or a clock that
    stepped backwards, do not divide by zero. *)
Theorem frame_rate_bounded (now last_frame_time : Qc) :
  exists rate,
    fps now last_frame_time = Ok rate /\
    0 < rate /\ rate <= ofZ 1000.
Proof.
  unfold fps. set (d := max2 (qc 1 1000) (now - last_frame_time)).
  assert (Hd : qc 1 1000 <= d) by apply max2_ge_l.
  assert (Hpos : 0 < d) by (eapply Qclt_le_trans; [| exact Hd]; reflexivity).
  assert (Hne : d <> 0) by now apply Qclt_0_neq.
  exists (1 / d). unfold py_div.
  apply Qceqb_neq in Hne. rewrite Hne. apply Qceqb_neq in Hne.
  split; [reflexivity |].
  assert (E : 1 / d = / d) by (unfold Qcdiv; apply Qcmult_1_l).
  rewrite E. split; [now apply Qcinv_pos |].
  apply (Qcmult_lt_0_le_reg_r _ _ d Hpos).
  rewrite Qcmult_inv_l by assumption.
  assert (E1 : 1 = ofZ 1000 * qc 1 1000) by (apply Qc_is_canon; reflexivity).
  rewrite E1 at 1. apply Qcmult_le_compat_l; [| exact Hd].
  apply Qclt_le_weak. reflexivity.
Qed.

(** ** Pixel landmarks *)

Lemma ofZ_this (z : Z) : this (ofZ z) = inject_Z z.
Proof. unfold ofZ. cbn [Q2Qc this]. apply Qred_identity. simpl. apply Z.gcd_1_r. Qed.

Lemma py_int_nonneg (q : Qc) : 0 <= q -> (0 <= py_int q)%Z.
Proof.
  intro H. unfold py_int. apply Z.quot_pos; [| reflexivity].
  unfold Qcle, Qle in H. cbn in H. lia.
Qed.

Lemma py_int_lower (w : Z) (q : Qc) : ofZ w <= q -> (w <= py_int q)%Z.
Proof.
  intro H. unfold py_int. apply Z.quot_le_lower_bound; [reflexivity |].
  unfold Qcle in H. rewrite ofZ_this in H. unfold Qle in H. cbn in H. lia.
Qed.

Lemma ofZ_nonneg (w : Z) : (0 <= w)%Z -> 0 <= ofZ w.
Proof.
  intro H. unfold Qcle. rewrite ofZ_this. unfold Qle. cbn. lia.
Qed.

Lemma extract_landmarks_length (w h : Z) (hand : list Landmark.t) :
  List.length (extract_landmarks w h hand) = List.length hand.
Proof. unfold extract_landmarks. apply length_map. Qed.

(** X6.  [extract_landmarks] returns one pixel point per landmark, with
    integer coordinates that never exceed the last column and row; when the
    image is not empty and the landmark coordinates are not negative, every
    point lies in the image. *)
Theorem extract_landmarks_in_image (w h : Z) (hand : list Landmark.t) :
  (1 <= w)%Z ->
  (1 <= h)%Z ->
  Forall (fun lm => 0 <= Landmark.x lm /\ 0 <= Landmark.y lm) hand ->
  List.length (extract_landmarks w h hand) = List.length hand /\
  Forall (in_image w h) (extract_landmarks w h hand).
Proof.
  intros Hw Hh Hpos. split; [apply extract_landmarks_length |].
  unfold extract_landmarks. apply Forall_map.
  eapply Forall_impl; [| exact Hpos]. intros lm [Hx Hy].
  eexists _, _. split; [reflexivity |].
  assert (Hxw : 0 <= Landmark.x lm * ofZ w).
  { rewrite <- (Qcmult_0_l (ofZ w)).
    apply Qcmult_le_compat_r; [assumption | apply ofZ_nonneg; lia]. }
  assert (Hyh : 0 <= Landmark.y lm * ofZ h).
  { rewrite <- (Qcmult_0_l (ofZ h)).
    apply Qcmult_le_compat_r; [assumption | apply ofZ_nonneg; lia]. }
  apply py_int_nonneg in Hxw, Hyh. lia.
Qed.

Lemma extract_landmarks_in_image_witness :
  List.length (extract_landmarks 640 480 sample_detection) = 2%nat /\
  Forall (in_image 640 480) (extract_landmarks 640 480 sample_detection).
Proof.
  apply (extract_landmarks_in_image 640 480 sample_detection).
  - lia.
  - lia.
  - repeat constructor; apply Qcleb_le; reflexivity.
Defined.

(** X7.  A landmark at or beyond the right or bottom edge (a coordinate of
    1 or more) is clamped to the last column or row. *)
Theorem extract_landmarks_clamps (w h : Z) (hand : list Landmark.t)
    (i : nat) (lm : Landmark.t) :
  (0 <= w)%Z ->
  (0 <= h)%Z ->
  nth_error hand i = Some lm ->
  exists p,
    nth_error (extract_landmarks w h hand) i = Some p /\
    (1 <= Landmark.x lm -> fst p = ofZ (w - 1)) /\
    (1 <= Landmark.y lm -> snd p = ofZ (h - 1)).
Proof.
  intros Hw Hh Hi. unfold extract_landmarks.
  eexists. split; [apply map_nth_error; exact Hi |].
  cbn [fst snd]. split; intro H1; f_equal; apply Z.min_r.
  - assert (L : ofZ w <= Landmark.x lm * ofZ w).
    { rewrite <- (Qcmult_1_l (ofZ w)) at 1.
      apply Qcmult_le_compat_r; [assumption | now apply ofZ_nonneg]. }
    apply py_int_lower in L. lia.
  - assert (L : ofZ h <= Landmark.y lm * ofZ h).
    { rewrite <- (Qcmult_1_l (ofZ h)) at 1.
      apply Qcmult_le_compat_r; [assumption | now apply ofZ_nonneg]. }
    apply py_int_lower in L. lia.
Qed.

Lemma extract_landmarks_clamps_witness :
  exists p,
    nth_error (extract_landmarks 640 480 edge_detection) 0 = Some p /\
    fst p = ofZ 639.
Proof.
  destruct (extract_landmarks_clamps 640 480 edge_detection 0
              (Landmark.mk 1 (qc 1 2))) as (p & Hp & Hx & _).
  - lia.
  - lia.
  - reflexivity.
  - exists p. split; [exact Hp |]. apply Hx. apply Qcleb_le. reflexivity.
Defined.

(** ** More on the normalizer *)

(** The output is the flattened relative coordinates times one positive
    factor [c]: the inverse of the greatest magnitude [m], or 1 when [m] is
    zero. *)
Lemma preprocess_landmarks_factor (b : point) (ps : list point) :
  let flattened := chain_from_iterable (relative (fst b) (snd b) (b :: ps)) in
  exists m c,
    py_max (map Qcabs flattened) = Ok m /\
    0 < c /\
    (m = 0 \/ (0 < m /\ c = / m)) /\
    preprocess_landmarks (b :: ps) = Ok (map (fun v => v * c) flattened).
Proof.
  intro flattened.
  destruct (preprocess_landmarks_cons b ps) as (m & Hm & E).
  fold flattened in Hm, E. exists m.
  destruct (Qceqb m 0) eqn:Z.
  - exists 1. split; [exact Hm |]. split; [reflexivity |].
    split; [left; now apply Qceqb_eq |].
    rewrite E. f_equal. refine (eq_trans (eq_sym (map_id _)) _).
    apply map_ext. intro v. now rewrite Qcmult_1_r.
  - apply Qceqb_neq in Z.
    assert (Hpos : 0 < m).
    { pose proof (py_max_In _ _ Hm) as Hin.
      apply in_map_iff in Hin as (v & Hv & _).
      destruct (Qcle_lt_or_eq 0 m) as [P | P];
        [rewrite <- Hv; apply Qcabs_nonneg | assumption | congruence]. }
    exists (/ m). split; [exact Hm |]. split; [now apply Qcinv_pos |].
    split; [right; split; [assumption | reflexivity] |].
    rewrite E. reflexivity.
Qed.

Lemma Qcabs_le_one (v m : Qc) : 0 < m -> Qcabs v <= m -> Qcabs (v * / m) <= 1.
Proof.
  intros Hm Hv.
  assert (Hi : 0 < / m) by now apply Qcinv_pos.
  rewrite Qcabs_Qcmult, (Qcabs_pos (/ m)) by now apply Qclt_le_weak.
  rewrite <- (Qcmult_inv_r m) by now apply Qclt_0_neq.
  apply Qcmult_le_compat_r; [assumption | now apply Qclt_le_weak].
Qed.

(** X8.  Every component of the feature vector lies between -1 and 1. *)
Theorem preprocess_landmarks_bounded (L : list point) :
  L <> [] ->
  exists out,
    preprocess_landmarks L = Ok out /\
    Forall (fun v => - (1) <= v /\ v <= 1) out.
Proof.
  destruct L as [| b ps]; [congruence | intros _].
  destruct (preprocess_landmarks_factor b ps) as (m & c & Hm & Hc & Hmc & E).
  set (flattened := chain_from_iterable (relative (fst b) (snd b) (b :: ps))) in *.
  eexists. split; [exact E |].
  apply Forall_map, Forall_forall. intros v Hv.
  apply Qcabs_Qcle_condition.
  destruct Hmc as [-> | [Hpos ->]].
  - rewrite (py_max_abs_zero _ Hm v Hv), Qcmult_0_l, Qcabs_0.
    apply Qclt_le_weak. reflexivity.
  - apply Qcabs_le_one; [assumption |].
    apply (py_max_upper _ _ Hm). now apply in_map.
Qed.

Lemma preprocess_landmarks_bounded_witness :
  exists out,
    preprocess_landmarks sample_hand = Ok out /\
    Forall (fun v => - (1) <= v /\ v <= 1) out.
Proof.
  apply (preprocess_landmarks_bounded sample_hand). discriminate.
Defined.

Lemma relative_zero_iff (b p : point) :
  fst p - fst b = 0 /\ snd p - snd b = 0 <-> b = p.
Proof.
  destruct p as [x y], b as [bx by_]. cbn [fst snd]. split.
  - intros [Hx Hy]. f_equal.
    + rewrite <- (Qcplus_0_l bx), <- Hx. ring.
    + rewrite <- (Qcplus_0_l by_), <- Hy. ring.
  - intros [= -> ->]. split; ring.
Qed.

(** X9.  The feature vector is all zeros exactly when every point coincides
    with the base point: a hand with any extent never normalizes to the zero
    vector. *)
Theorem preprocess_landmarks_zero_iff (b : point) (ps : list point) :
  exists out,
    preprocess_landmarks (b :: ps) = Ok out /\
    (Forall (eq 0) out <-> Forall (eq b) ps).
Proof.
  destruct (preprocess_landmarks_factor b ps) as (m & c & _ & Hc & _ & E).
  set (flattened := chain_from_iterable (relative (fst b) (snd b) (b :: ps))) in *.
  eexists. split; [exact E |].
  assert (Hc0 : c <> 0) by now apply Qclt_0_neq.
  rewrite Forall_map. rewrite !Forall_forall. split.
  - intros Hz p Hp. apply relative_zero_iff. split.
    + assert (Hin : In (fst p - fst b) flattened).
      { apply in_chain_from_iterable.
        exists (fst p - fst b, snd p - snd b). split; [| now left].
        unfold relative.
        apply (in_map (fun q => (fst q - fst b, snd q - snd b))). now right. }
      specialize (Hz _ Hin). symmetry in Hz.
      destruct (Qcmult_integral _ _ Hz); [assumption | contradiction].
    + assert (Hin : In (snd p - snd b) flattened).
      { apply in_chain_from_iterable.
        exists (fst p - fst b, snd p - snd b). split; [| now right].
        unfold relative.
        apply (in_map (fun q => (fst q - fst b, snd q - snd b))). now right. }
      specialize (Hz _ Hin). symmetry in Hz.
      destruct (Qcmult_integral _ _ Hz); [assumption | contradiction].
  - intros Hsame v Hv. apply in_chain_from_iterable in Hv as (q & Hq & Hv).
    unfold relative in Hq. apply in_map_iff in Hq as (p & <- & Hp).
    assert (Hbp : b = p) by (destruct Hp as [Hp | Hp]; [exact Hp | now apply Hsame]).
    subst p. cbn [fst snd] in Hv.
    destruct Hv as [-> | ->]; ring.
Qed.

Lemma preprocess_landmarks_zero_iff_witness :
  exists out,
    preprocess_landmarks sample_hand = Ok out /\
    ~ Forall (eq 0) out.
Proof.
  destruct (preprocess_landmarks_zero_iff (ofZ 1, ofZ 2) [(ofZ 4, ofZ 6)])
    as (out & E & Hiff).
  exists out. split; [exact E |].
  intro Hz. apply Hiff in Hz. inversion Hz as [| p ps Hp _]; subst.
  apply (f_equal (fun p => Qnum (this (fst p)))) in Hp.
  vm_compute in Hp. discriminate Hp.
Defined.

Lemma map_abs_scale_neg (k : Qc) (l : list Qc) :
  k < 0 -> map Qcabs (map (Qcmult k) l) = map (Qcmult (- k)) (map Qcabs l).
Proof.
  intro Hk. rewrite !map_map. apply map_ext. intro v.
  rewrite Qcabs_Qcmult. f_equal. apply Qcabs_neg. now apply Qclt_le_weak.
Qed.

Lemma Qcopp_pos (k : Qc) : k < 0 -> 0 < - k.
Proof.
  intro Hk. apply Qclt_minus_iff in Hk. now rewrite Qcplus_0_l in Hk.
Qed.

(** X10.  Scaling by a negative factor (a point reflection of the hand
    through the origin, with any magnification) negates the feature vector:
    the normalizer is not invariant under reflection. *)
Theorem preprocess_landmarks_reflection (L : list point) (k : Qc) :
  L <> [] ->
  k < 0 ->
  exists out,
    preprocess_landmarks L = Ok out /\
    preprocess_landmarks (scale k L) = Ok (map Qcopp out).
Proof.
  intros HL Hk. destruct L as [| [bx by_] ps]; [congruence | clear HL].
  assert (Hk0 : k <> 0) by (intro E; subst k; exact (Qclt_not_eq _ _ Hk eq_refl)).
  assert (Hnk : 0 < - k) by now apply Qcopp_pos.
  destruct (preprocess_landmarks_cons (bx, by_) ps) as (m & Hm & E).
  destruct (preprocess_landmarks_cons (k * bx, k * by_) (scale k ps))
    as (m' & Hm' & E').
  cbn [fst snd] in *.
  change ((k * bx, k * by_) :: scale k ps) with (scale k ((bx, by_) :: ps)) in *.
  rewrite relative_scale, <- (chain_from_iterable_map (Qcmult k)) in Hm', E'.
  rewrite map_abs_scale_neg in Hm' by assumption.
  assert (Hmm : Ok m' = Ok (- k * m))
    by (etransitivity; [symmetry; exact Hm' | exact (py_max_scale (- k) m _ Hnk Hm)]).
  injection Hmm as ->.
  eexists. split; [exact E |].
  refine (eq_trans E' _). f_equal.
  destruct (Qceqb m 0) eqn:Z.
  - apply Qceqb_eq in Z. subst m. rewrite Qcmult_0_r, Qceqb_refl.
    apply map_ext_in. intros v Hin.
    rewrite (py_max_abs_zero _ Hm v Hin). ring.
  - apply Qceqb_neq in Z.
    assert (Hkm : - k * m <> 0).
    { intro P. destruct (Qcmult_integral _ _ P) as [P1 | P1]; [| contradiction].
      apply Hk0. rewrite <- (Qcopp_involutive k), P1. reflexivity. }
    apply Qceqb_neq in Hkm. rewrite Hkm. apply Qceqb_neq in Hkm.
    rewrite !map_map. apply map_ext. intro v. field.
    split; [assumption | now apply Qclt_0_neq].
Qed.

Lemma preprocess_landmarks_reflection_witness :
  exists out,
    preprocess_landmarks sample_hand = Ok out /\
    preprocess_landmarks (scale (ofZ (-2)) sample_hand) = Ok (map Qcopp out).
Proof.
  apply (preprocess_landmarks_reflection sample_hand (ofZ (-2))).
  - discriminate.
  - reflexivity.
Defined.

(** X11.  A detected hand with [N >= 1] landmarks always yields a feature
    vector, of [2N] components between -1 and 1, whatever the image size and
    the landmark coordinates: the pixel conversion followed by the normalizer
    never faults. *)
Theorem features_of_detection (w h : Z) (hand : list Landmark.t) :
  hand <> [] ->
  exists features,
    preprocess_landmarks (extract_landmarks w h hand) = Ok features /\
    List.length features = (2 * List.length hand)%nat /\
    Forall (fun v => - (1) <= v /\ v <= 1) features.
Proof.
  intro Hne.
  assert (Hpix : extract_landmarks w h hand <> []).
  { intro E. apply (f_equal (@List.length point)) in E.
    rewrite extract_landmarks_length in E. destruct hand; [congruence | discriminate]. }
  destruct (extract_landmarks w h hand) as [| b ps] eqn:Epix; [congruence |].
  destruct (preprocess_landmarks_factor b ps) as (m & c & Hm & Hc & Hmc & E).
  set (flattened := chain_from_iterable (relative (fst b) (snd b) (b :: ps))) in *.
  eexists. split; [exact E |]. split.
  - rewrite length_map. unfold flattened. rewrite relative_length.
    rewrite <- Epix, extract_landmarks_length. reflexivity.
  - apply Forall_map, Forall_forall. intros v Hv.
    apply Qcabs_Qcle_condition.
    destruct Hmc as [-> | [Hpos ->]].
    + rewrite (py_max_abs_zero _ Hm v Hv), Qcmult_0_l, Qcabs_0.
      apply Qclt_le_weak. reflexivity.
    + apply Qcabs_le_one; [assumption |].
      apply (py_max_upper _ _ Hm). now apply in_map.
Qed.

Lemma features_of_detection_witness :
  exists features,
    preprocess_landmarks (extract_landmarks 640 480 sample_detection) = Ok features /\
    List.length features = 4%nat /\
    Forall (fun v => - (1) <= v /\ v <= 1) features.
Proof.
  apply (features_of_detection 640 480 sample_detection). discriminate.
Defined.

(** ** More on the classification adapter *)

Lemma classify_ok (labels : list pyval) (probs : list Qc) :
  probs <> [] ->
  exists idx label confidence,
    np_argmax probs = Ok idx /\
    nth_error probs idx = Some confidence /\
    (if (idx <? List.length labels)%nat
     then nth_error labels idx = Some label
     else label = PStr (py_str idx)) /\
    classify labels probs = Ok (label, confidence).
Proof.
  intro Hne. destruct (np_argmax_spec probs Hne) as (idx & v & Ha & Hv & _).
  unfold classify. rewrite Ha. cbn [Py.bind]. unfold py_index. rewrite Hv.
  destruct (idx <? List.length labels)%nat eqn:E.
  - pose proof (proj1 (Nat.ltb_lt _ _) E) as Hlt.
    destruct (nth_error labels idx) as [l |] eqn:Hl;
      [| apply nth_error_None in Hl; lia].
    exists idx, l, v. rewrite E. repeat split; try assumption; reflexivity.
  - exists idx, (PStr (py_str idx)), v. rewrite E.
    repeat split; try assumption; reflexivity.
Qed.

(** X12.  When the vocabulary is at least as long as the classifier output,
    the predicted label is always an entry of the vocabulary: the numeric
    fallback is never used. *)
Theorem classify_within_vocabulary (labels : list pyval) (probs : list Qc) :
  probs <> [] ->
  (List.length probs <= List.length labels)%nat ->
  exists label confidence,
    classify labels probs = Ok (label, confidence) /\
    In label labels.
Proof.
  intros Hne Hlen.
  destruct (classify_ok labels probs Hne) as (idx & l & c & _ & Hc & Hl & E).
  exists l, c. split; [exact E |].
  assert (Hidx : (idx < List.length probs)%nat)
    by (apply nth_error_Some; congruence).
  assert (Hlt : (idx <? List.length labels)%nat = true)
    by (apply Nat.ltb_lt; lia).
  rewrite Hlt in Hl. eapply nth_error_In. exact Hl.
Qed.

Lemma classify_within_vocabulary_witness :
  exists label confidence,
    classify [PStr "A"; PStr "B"] [qc 1 10; qc 9 10] = Ok (label, confidence) /\
    In label [PStr "A"; PStr "B"].
Proof.
  apply (classify_within_vocabulary [PStr "A"; PStr "B"] [qc 1 10; qc 9 10]).
  - discriminate.
  - apply le_n.
Defined.

Lemma argmax_from_first (xs : list Qc) :
  forall (pre : list Qc) (best : Qc) (best_i : nat),
    nth_error pre best_i = Some best ->
    (forall j w, (j < best_i)%nat -> nth_error pre j = Some w -> w < best) ->
    (forall w, In w pre -> w <= best) ->
    forall j w,
      (j < argmax_from xs best best_i (List.length pre))%nat ->
      nth_error (pre ++ xs) j = Some w ->
      exists v,
        nth_error (pre ++ xs) (argmax_from xs best best_i (List.length pre)) = Some v /\
        w < v.
Proof.
  induction xs as [| x xs IH]; intros pre best best_i Hnth Hlow Hmax j w Hj Hw.
  - cbn [argmax_from] in *. rewrite app_nil_r in *.
    exists best. split; [assumption | eapply Hlow; eassumption].
  - cbn [argmax_from] in *.
    assert (Hlen : List.length (pre ++ [x]) = S (List.length pre))
      by (rewrite length_app; simpl; lia).
    assert (Happ : (pre ++ [x]) ++ xs = pre ++ x :: xs)
      by (rewrite <- app_assoc; reflexivity).
    assert (Hbi : (best_i < List.length pre)%nat)
      by (apply nth_error_Some; congruence).
    destruct (Qcltb best x) eqn:E.
    + apply Qcltb_lt in E.
      rewrite <- Hlen, <- Happ in *.
      apply (IH (pre ++ [x]) x (List.length pre)) with (j := j) (w := w);
        try assumption.
      * rewrite nth_error_app2 by lia. rewrite Nat.sub_diag. reflexivity.
      * intros j' w' Hj' Hw'. rewrite nth_error_app1 in Hw' by assumption.
        eapply Qcle_lt_trans; [| exact E].
        apply Hmax. eapply nth_error_In. exact Hw'.
      * intros w' Hw'. apply in_app_or in Hw' as [Hw' | [<- | []]].
        -- apply Qclt_le_weak. eapply Qcle_lt_trans; [apply Hmax, Hw' | exact E].
        -- apply Qcle_refl.
    + apply Qcltb_ge in E.
      rewrite <- Hlen, <- Happ in *.
      apply (IH (pre ++ [x]) best best_i) with (j := j) (w := w);
        try assumption.
      * rewrite nth_error_app1 by assumption. assumption.
      * intros j' w' Hj' Hw'.
        rewrite nth_error_app1 in Hw' by lia. eapply Hlow; eassumption.
      * intros w' Hw'. apply in_app_or in Hw' as [Hw' | [<- | []]];
          [apply Hmax, Hw' | exact E].
Qed.

(** X13.  The confidence returned is the greatest probability, and every
    channel before the selected one is strictly smaller: among equal maxima
    the lowest index, hence the earliest vocabulary entry, wins. *)
Theorem classify_first_maximum (labels : list pyval) (probs : list Qc) :
  probs <> [] ->
  exists idx label confidence,
    np_argmax probs = Ok idx /\
    classify labels probs = Ok (label, confidence) /\
    nth_error probs idx = Some confidence /\
    (forall w, In w probs -> w <= confidence) /\
    (forall j w, (j < idx)%nat -> nth_error probs j = Some w -> w < confidence).
Proof.
  intro Hne.
  destruct (classify_ok labels probs Hne) as (idx & l & c & Ha & Hc & _ & E).
  destruct (np_argmax_spec probs Hne) as (idx' & v & Ha' & Hv & Hub).
  assert (idx' = idx) by congruence. subst idx'.
  assert (v = c) by congruence. subst v.
  exists idx, l, c. repeat split; try assumption.
  intros j w Hj Hw.
  destruct probs as [| p ps]; [congruence |].
  cbn [np_argmax] in Ha. injection Ha as Ha.
  destruct (argmax_from_first ps [p] p 0%nat eq_refl) with (j := j) (w := w)
    as (v & Hv' & Hlt).
  - intros j' w' Hj'. lia.
  - intros w' [<- | []]. apply Qcle_refl.
  - cbn [List.length]. lia.
  - exact Hw.
  - cbn [List.length app] in Hv'. rewrite Ha in Hv'.
    assert (v = c) by congruence. subst v. exact Hlt.
Qed.

Lemma classify_first_maximum_witness :
  exists idx label confidence,
    np_argmax [qc 9 10; qc 9 10] = Ok idx /\
    classify [PStr "A"; PStr "B"] [qc 9 10; qc 9 10] = Ok (label, confidence) /\
    nth_error [qc 9 10; qc 9 10] idx = Some confidence.
Proof.
  destruct (classify_first_maximum [PStr "A"; PStr "B"] [qc 9 10; qc 9 10])
    as (idx & l & c & Ha & E & Hc & _ & _).
  - discriminate.
  - exists idx, l, c. repeat split; assumption.
Defined.

(** X14.  The adapter raises only on an empty classifier output, and then
    [ValueError]; a vocabulary of any length, even empty, never makes it
    raise. *)
Theorem classify_raises (labels : list pyval) (probs : list Qc) (e : exn) :
  classify labels probs = Raise e <-> probs = [] /\ e = ValueError.
Proof.
  split.
  - destruct probs as [| p ps].
    + intros [= <-]. split; reflexivity.
    + intro H. exfalso.
      destruct (classify_ok labels (p :: ps)) as (idx & l & c & _ & _ & _ & E);
        [discriminate | congruence].
  - intros [-> ->]. reflexivity.
Qed.

Lemma classify_raises_witness :
  classify [] [] = Raise ValueError.
Proof.
  apply (classify_raises [] [] ValueError). split; reflexivity.
Defined.

(** ** Runs of the frame loop *)

Lemma speech_gate_cases (args : Args.t) (st : stabilizer)
    (label : pyval) (confidence t : Qc) :
  speech_gate args st label confidence t = (st, None) \/
  (speech_gate args st label confidence t
   = ({| last_label := label; last_change_time := t |}, Some label) /\
   py_truthy label = true /\
   py_neb label (last_label st) = true /\
   refractory < t - last_change_time st).
Proof.
  unfold speech_gate.
  destruct (Args.no_audio args); cbn [negb andb]; [left; reflexivity |].
  destruct (py_truthy label); cbn [andb]; [| left; reflexivity].
  destruct (Qcleb (Args.conf args) confidence); [| left; reflexivity].
  destruct (py_neb label (last_label st)); cbn [andb]; [| left; reflexivity].
  destruct (Qcltb refractory (t - last_change_time st)) eqn:Hr; [| left; reflexivity].
  right. apply Qcltb_lt in Hr. repeat split; assumption.
Qed.

Lemma classify_label_origin (labels : list pyval) (probs : list Qc)
    (label : pyval) (confidence : Qc) :
  classify labels probs = Ok (label, confidence) ->
  In label labels \/ exists i, label = PStr (py_str i).
Proof.
  intro H. destruct probs as [| p ps]; [discriminate |].
  destruct (classify_ok labels (p :: ps)) as (idx & l & c & _ & _ & Hl & E);
    [discriminate |].
  rewrite E in H. injection H as <- <-.
  destruct (idx <? List.length labels)%nat.
  - left. eapply nth_error_In. exact Hl.
  - right. exists idx. exact Hl.
Qed.

(** One iteration either leaves the stabilizer alone and says nothing, or
    commits a label. *)
Lemma loop_body_cases (args : Args.t) (labels : list pyval)
    (model : list Qc -> list Qc) (st : stabilizer) (f : frame) (it : iteration) :
  loop_body args labels model st f = Ok it ->
  (next it = st /\ spoken it = None) \/
  (exited it = false /\
   exists l,
     it = mkIteration {| last_label := l; last_change_time := now f |} (Some l) false /\
     py_truthy l = true /\
     py_neb l (last_label st) = true /\
     refractory < now f - last_change_time st /\
     (In l labels \/ exists i, l = PStr (py_str i))).
Proof.
  unfold loop_body.
  destruct (ok f); cbn [negb]; [| intros [= <-]; left; split; reflexivity].
  destruct (multi_hand_landmarks f) as [| hand rest].
  - cbn [Py.bind fst snd].
    destruct (Z.eqb (Z.land (key f) 255) 27); [intros [= <-]; left; split; reflexivity |].
    rewrite speech_gate_falsy by reflexivity.
    intros [= <-]. left. split; reflexivity.
  - destruct (preprocess_landmarks
                (extract_landmarks (img_width f) (img_height f) hand))
      as [features | e]; cbn [Py.bind]; [| discriminate].
    destruct (classify labels (model features)) as [[l c] | e] eqn:Hc;
      cbn [Py.bind fst snd]; [| discriminate].
    destruct (Z.eqb (Z.land (key f) 255) 27); [intros [= <-]; left; split; reflexivity |].
    destruct (speech_gate_cases args st l c (now f)) as [-> | (-> & Ht & Hn & Hr)].
    + intros [= <-]. left. split; reflexivity.
    + intros [= <-]. right. split; [reflexivity |]. exists l.
      split; [reflexivity |]. repeat split; try assumption.
      eapply classify_label_origin. exact Hc.
Qed.

Lemma run_eta (r : run) : mkRun (final r) (speech r) (status r) = r.
Proof. destruct r. reflexivity. Qed.

(** A run, frame by frame: the first frame faults, or exits, or changes
    nothing, or commits a label and the run goes on from the new state. *)
Lemma main_loop_step (args : Args.t) (labels : list pyval)
    (model : list Qc -> list Qc) (st : stabilizer) (f : frame) (frames : list frame) :
  (exists e, main_loop args labels model st (f :: frames) = mkRun st [] (Faulted e)) \/
  main_loop args labels model st (f :: frames) = mkRun st [] Exited \/
  main_loop args labels model st (f :: frames) = main_loop args labels model st frames \/
  (exists l,
      py_truthy l = true /\
      py_neb l (last_label st) = true /\
      refractory < now f - last_change_time st /\
      (In l labels \/ exists i, l = PStr (py_str i)) /\
      main_loop args labels model st (f :: frames)
      = mkRun
          (final (main_loop args labels model
                    {| last_label := l; last_change_time := now f |} frames))
          (l :: speech (main_loop args labels model
                          {| last_label := l; last_change_time := now f |} frames))
          (status (main_loop args labels model
                     {| last_label := l; last_change_time := now f |} frames))).
Proof.
  cbn [main_loop].
  destruct (loop_body args labels model st f) as [it | e] eqn:E.
  - destruct (loop_body_cases _ _ _ _ _ _ E)
      as [[Hn Hs] | (Hx & l & -> & Ht & Hne & Hr & Ho)].
    + rewrite Hn, Hs. destruct (exited it).
      * right. left. reflexivity.
      * right. right. left. apply run_eta.
    + right. right. right. exists l. cbn [exited next spoken].
      repeat split; assumption.
  - left. exists e. reflexivity.
Qed.


(** X16.  The loop never speaks the same label twice in a row, and the first
    label spoken differs from the label the run started with. *)
Theorem speech_changes (args : Args.t) (labels : list pyval)
    (model : list Qc -> list Qc) (frames : list frame) (st : stabilizer) :
  changes (last_label st) (speech (main_loop args labels model st frames)) = true.
Proof.
  revert st. induction frames as [| f frames IH]; intro st; [reflexivity |].
  destruct (main_loop_step args labels model st f frames)
    as [[e ->] | [-> | [-> | (l & _ & Hne & _ & _ & ->)]]]; cbn [speech changes].
  - reflexivity.
  - reflexivity.
  - apply IH.
  - rewrite Hne. cbn [andb].
    apply (IH {| last_label := l; last_change_time := now f |}).
Qed.

Lemma last_cons_default {A : Type} (l : list A) (a d : A) :
  last (a :: l) d = last l a.
Proof.
  revert a d. induction l as [| b l IH]; intros a d; [reflexivity |].
  change (last (a :: b :: l) d) with (last (b :: l) d).
  rewrite !IH. reflexivity.
Qed.

(** X17.  At the end of a run the stabilizer holds the last label spoken;
    if nothing was spoken it is exactly the stabilizer the run began with. *)
Theorem final_label_is_last_spoken (args : Args.t) (labels : list pyval)
    (model : list Qc -> list Qc) (frames : list frame) (st : stabilizer) :
  last_label (final (main_loop args labels model st frames))
  = last (speech (main_loop args labels model st frames)) (last_label st) /\
  (speech (main_loop args labels model st frames) = [] ->
   final (main_loop args labels model st frames) = st).
Proof.
  revert st. induction frames as [| f frames IH]; intro st;
    [split; reflexivity |].
  destruct (main_loop_step args labels model st f frames)
    as [[e ->] | [-> | [-> | (l & _ & _ & _ & _ & ->)]]]; cbn [speech final].
  - split; reflexivity.
  - split; reflexivity.
  - apply IH.
  - split; [| discriminate].
    rewrite last_cons_default.
    apply (IH {| last_label := l; last_change_time := now f |}).
Qed.

Lemma final_label_is_last_spoken_witness :
  final (main_loop Args.default [PStr "A"; PStr "B"] constant_model
           initial_stabilizer [dropped_frame])
  = initial_stabilizer.
Proof.
  apply (final_label_is_last_spoken Args.default [PStr "A"; PStr "B"]
           constant_model [dropped_frame] initial_stabilizer).
  reflexivity.
Defined.

Lemma ofZ_succ (n : nat) : ofZ (Z.of_nat (S n)) = ofZ (Z.of_nat n) + 1.
Proof.
  apply Qc_is_canon. rewrite ofZ_this.
  cbn [Qcplus Q2Qc this]. rewrite Qred_correct, ofZ_this.
  rewrite Nat2Z.inj_succ. unfold Z.succ. rewrite inject_Z_plus.
  reflexivity.
Qed.

Lemma speech_rate_aux (args : Args.t) (labels : list pyval)
    (model : list Qc -> list Qc) (frames : list frame) (st : stabilizer) :
  ofZ (Z.of_nat (List.length (speech (main_loop args labels model st frames))))
  * refractory
  <= last_change_time (final (main_loop args labels model st frames))
     - last_change_time st.
Proof.
  revert st. induction frames as [| f frames IH]; intro st.
  - cbn. replace (last_change_time st - last_change_time st) with 0 by ring.
    rewrite Qcmult_0_l. apply Qcle_refl.
  - destruct (main_loop_step args labels model st f frames)
      as [[e ->] | [-> | [-> | (l & _ & _ & Hr & _ & ->)]]];
      cbn [speech final List.length].
    + cbn. replace (last_change_time st - last_change_time st) with 0 by ring.
      rewrite Qcmult_0_l. apply Qcle_refl.
    + cbn. replace (last_change_time st - last_change_time st) with 0 by ring.
      rewrite Qcmult_0_l. apply Qcle_refl.
    + apply IH.
    + specialize (IH {| last_label := l; last_change_time := now f |}).
      cbn [last_change_time] in IH.
      set (r := main_loop args labels model
                  {| last_label := l; last_change_time := now f |} frames) in *.
      rewrite ofZ_succ.
      replace ((ofZ (Z.of_nat (List.length (speech r))) + 1) * refractory)
        with (ofZ (Z.of_nat (List.length (speech r))) * refractory + refractory)
        by ring.
      replace (last_change_time (final r) - last_change_time st)
        with ((last_change_time (final r) - now f) + (now f - last_change_time st))
        by ring.
      apply Qcplus_le_compat; [exact IH | now apply Qclt_le_weak].
Qed.

(** X18.  Speech is rate limited by the stabilizer's own clock: a run that
    speaks [n] times moves [last_change_time] forward by at least [n] times
    the refractory interval, whatever the frame timestamps are; in
    particular [last_change_time] never decreases. *)
Theorem speech_rate_limited (args : Args.t) (labels : list pyval)
    (model : list Qc -> list Qc) (frames : list frame) (st : stabilizer) :
  ofZ (Z.of_nat (List.length (speech (main_loop args labels model st frames))))
  * refractory
  <= last_change_time (final (main_loop args labels model st frames))
     - last_change_time st /\
  last_change_time st
  <= last_change_time (final (main_loop args labels model st frames)).
Proof.
  pose proof (speech_rate_aux args labels model frames st) as H.
  split; [exact H |].
  apply Qcle_minus_iff. eapply Qcle_trans; [| exact H].
  rewrite <- (Qcmult_0_l refractory).
  apply Qcmult_le_compat_r.
  - apply ofZ_nonneg. apply Nat2Z.is_nonneg.
  - apply Qclt_le_weak. reflexivity.
Qed.

(** X19.  Frames whose capture failed are skipped without a trace: a run
    over all frames ends exactly as the run over the captured ones. *)
Theorem dropped_frames_skipped (args : Args.t) (labels : list pyval)
    (model : list Qc -> list Qc) (frames : list frame) (st : stabilizer) :
  main_loop args labels model st (filter ok frames)
  = main_loop args labels model st frames.
Proof.
  revert st. induction frames as [| f frames IH]; intro st; [reflexivity |].
  cbn [filter]. destruct (ok f) eqn:Hok.
  - cbn [main_loop].
    destruct (loop_body args labels model st f) as [it | e]; [| reflexivity].
    destruct (exited it); [reflexivity |]. rewrite IH. reflexivity.
  - rewrite IH. cbn [main_loop]. unfold loop_body. rewrite Hok.
    cbn [negb exited next spoken]. symmetry. apply run_eta.
Qed.

(** X20.  Runs compose.  While a run is still running, feeding it more
    frames continues from its final stabilizer and appends to what was
    spoken; once it has exited or faulted, further frames change nothing. *)
Theorem main_loop_app (args : Args.t) (labels : list pyval)
    (model : list Qc -> list Qc) (frames more : list frame) (st : stabilizer) :
  (status (main_loop args labels model st frames) = Running ->
   main_loop args labels model st (frames ++ more)
   = mkRun
       (final (main_loop args labels model
                 (final (main_loop args labels model st frames)) more))
       (speech (main_loop args labels model st frames)
        ++ speech (main_loop args labels model
                     (final (main_loop args labels model st frames)) more))
       (status (main_loop args labels model
                  (final (main_loop args labels model st frames)) more))) /\
  (status (main_loop args labels model st frames) <> Running ->
   main_loop args labels model st (frames ++ more)
   = main_loop args labels model st frames).
Proof.
  revert st. induction frames as [| f frames IH]; intro st.
  - cbn [main_loop app final speech status]. split.
    + intros _. symmetry. apply run_eta.
    + congruence.
  - cbn [main_loop app].
    destruct (loop_body args labels model st f) as [it | e];
      [| cbn [status]; split; [discriminate | reflexivity]].
    destruct (exited it);
      [cbn [status]; split; [discriminate | reflexivity] |].
    destruct (IH (next it)) as [IHr IHs]. cbn [status final speech]. split.
    + intro Hrun. rewrite (IHr Hrun). cbn [final speech status].
      destruct (spoken it); reflexivity.
    + intro Hstop. rewrite (IHs Hstop). reflexivity.
Qed.

Lemma main_loop_app_witness :
  main_loop Args.default [PStr "A"; PStr "B"] constant_model initial_stabilizer
    ([escape_frame (ofZ 1)] ++ [hand_frame (ofZ 2)])
  = main_loop Args.default [PStr "A"; PStr "B"] constant_model initial_stabilizer
      [escape_frame (ofZ 1)].
Proof.
  apply (main_loop_app Args.default [PStr "A"; PStr "B"] constant_model
           [escape_frame (ofZ 1)] [hand_frame (ofZ 2)] initial_stabilizer).
  discriminate.
Defined.

Lemma features_ok (w h : Z) (hand : list Landmark.t) :
  hand <> [] ->
  exists features,
    preprocess_landmarks (extract_landmarks w h hand) = Ok features.
Proof.
  intro Hne. apply preprocess_landmarks_total.
  intro E. apply (f_equal (@List.length point)) in E.
  rewrite extract_landmarks_length in E. destruct hand; [congruence | discriminate].
Qed.

(** X21.  An iteration faults only on a captured frame with a detected hand,
    and only in two ways: the hand has no landmarks ([IndexError]), or the
    classifier returns an empty output ([ValueError]).  A frame without a
    hand never faults. *)
Theorem loop_body_raises (args : Args.t) (labels : list pyval)
    (model : list Qc -> list Qc) (st : stabilizer) (f : frame) (e : exn) :
  loop_body args labels model st f = Raise e <->
  ok f = true /\
  exists hand rest,
    multi_hand_landmarks f = hand :: rest /\
    ((hand = [] /\ e = IndexError) \/
     (exists features,
         preprocess_landmarks (extract_landmarks (img_width f) (img_height f) hand)
         = Ok features /\
         model features = [] /\ e = ValueError)).
Proof.
  unfold loop_body. split.
  - destruct (ok f); cbn [negb]; [| discriminate].
    destruct (multi_hand_landmarks f) as [| hand rest].
    + cbn [Py.bind fst snd].
      destruct (Z.eqb (Z.land (key f) 255) 27); [discriminate |].
      destruct (speech_gate args st (PStr EmptyString) 0 (now f)). discriminate.
    + intro H. split; [reflexivity |]. exists hand, rest. split; [reflexivity |].
      destruct hand as [| lm hand].
      * left. split; [reflexivity |]. cbn in H. congruence.
      * right.
        destruct (features_ok (img_width f) (img_height f) (lm :: hand))
          as [features Hf]; [discriminate |].
        exists features. split; [exact Hf |].
        rewrite Hf in H. cbn [Py.bind] in H.
        destruct (classify labels (model features)) as [[l c] | e'] eqn:Hc;
          cbn [Py.bind fst snd] in H.
        -- destruct (Z.eqb (Z.land (key f) 255) 27); [discriminate |].
           destruct (speech_gate args st l c (now f)). discriminate.
        -- injection H as <-.
           destruct (model features) as [| p ps] eqn:Hm.
           ++ cbn in Hc. injection Hc as <-. split; reflexivity.
           ++ exfalso.
              destruct (classify_ok labels (p :: ps))
                as (idx & l & c & _ & _ & _ & E); [discriminate | congruence].
  - intros (-> & hand & rest & -> & [[-> ->] | (features & Hf & Hm & ->)]).
    + reflexivity.
    + cbn [negb]. rewrite Hf. cbn [Py.bind]. rewrite Hm. reflexivity.
Qed.

Example features_of_sample_detection :
  preprocess_landmarks (extract_landmarks 640 480 sample_detection)
  = Ok [0; 0; 1; 1].
Proof. vm_compute. apply f_equal. qc_list_eq. Qed.

Lemma loop_body_raises_witness :
  loop_body Args.default [PStr "A"; PStr "B"] (fun _ => []) initial_stabilizer
    (hand_frame (ofZ 1))
  = Raise ValueError.
Proof.
  apply (loop_body_raises Args.default [PStr "A"; PStr "B"] (fun _ => [])
           initial_stabilizer (hand_frame (ofZ 1)) ValueError).
  split; [reflexivity |].
  exists sample_detection, []. split; [reflexivity |].
  right. exists [0; 0; 1; 1].
  split; [exact features_of_sample_detection | split; reflexivity].
Defined.

(** ** Speech *)

Lemma existsb_repeat_tick (f : Speech.event -> bool) (n : nat) :
  f Speech.Tick = false -> existsb f (repeat Speech.Tick n) = false.
Proof.
  intro H. induction n as [| n IH]; simpl; [reflexivity |].
  rewrite H, IH. reflexivity.
Qed.

Lemma filter_repeat_tick (f : Speech.event -> bool) (n : nat) :
  f Speech.Tick = false -> filter f (repeat Speech.Tick n) = [].
Proof.
  intro H. induction n as [| n IH]; simpl; [reflexivity |].
  rewrite H, IH. reflexivity.
Qed.

(** The trace of a call in which everything up to [music.play] works. *)
Lemma speak_plays (w : Speech.world) (text : pyval) :
  Speech.plays w = true ->
  Speech.speak w text
  = [Speech.Created (Speech.filename w); Speech.Saved text (Speech.filename w);
     Speech.Loaded (Speech.filename w); Speech.Played]
    ++ repeat Speech.Tick (Speech.busy_polls w)
    ++ match Speech.os_remove w with
       | Speech.Returns => [Speech.Removed (Speech.filename w)]
       | Speech.RaisesOSError _ => []
       | Speech.RaisesOther _ => Speech.tts_error (Speech.os_remove w)
       end.
Proof.
  unfold Speech.plays, Speech.speak.
  destruct (Speech.named_temporary_file w); try discriminate.
  destruct (Speech.gtts w); try discriminate.
  destruct (Speech.save w); try discriminate.
  destruct (Speech.music_load w); try discriminate.
  destruct (Speech.music_play w); try discriminate.
  intros _. reflexivity.
Qed.

(** The trace of a call in which something up to [music.play] raises: at
    most the file creation, then the error message. *)
Lemma speak_fails (w : Speech.world) (text : pyval) :
  Speech.plays w = false ->
  exists e,
    Speech.speak w text
    = match Speech.named_temporary_file w with
      | Speech.Returns => [Speech.Created (Speech.filename w)]
      | _ => []
      end
      ++ match Speech.named_temporary_file w, Speech.gtts w, Speech.save w with
         | Speech.Returns, Speech.Returns, Speech.Returns =>
             [Speech.Saved text (Speech.filename w)]
         | _, _, _ => []
         end
      ++ match Speech.named_temporary_file w, Speech.gtts w, Speech.save w,
               Speech.music_load w with
         | Speech.Returns, Speech.Returns, Speech.Returns, Speech.Returns =>
             [Speech.Loaded (Speech.filename w)]
         | _, _, _, _ => []
         end
      ++ Speech.tts_error e.
Proof.
  unfold Speech.plays, Speech.speak.
  destruct (Speech.named_temporary_file w) eqn:E1;
    [| eexists; reflexivity | eexists; reflexivity].
  destruct (Speech.gtts w) eqn:E2;
    [| eexists; reflexivity | eexists; reflexivity].
  destruct (Speech.save w) eqn:E3;
    [| eexists; reflexivity | eexists; reflexivity].
  destruct (Speech.music_load w) eqn:E4;
    [| eexists; reflexivity | eexists; reflexivity].
  destruct (Speech.music_play w) eqn:E5;
    [discriminate | eexists; reflexivity | eexists; reflexivity].
Qed.

(** X22.  [speak] creates the temporary file whenever
    [NamedTemporaryFile] succeeds, but removes it only when synthesis,
    loading and playing all succeeded and [os.remove] itself did: after any
    failure in between, the file is left behind. *)
Theorem speak_temporary_file (w : Speech.world) (text : pyval) :
  (existsb Speech.is_created (Speech.speak w text) = true <->
   Speech.named_temporary_file w = Speech.Returns) /\
  (existsb Speech.is_removed (Speech.speak w text) = true <->
   Speech.plays w = true /\ Speech.os_remove w = Speech.Returns).
Proof.
  destruct (Speech.plays w) eqn:Hp.
  - rewrite (speak_plays w text Hp).
    assert (Hn : Speech.named_temporary_file w = Speech.Returns).
    { unfold Speech.plays in Hp.
      destruct (Speech.named_temporary_file w); [reflexivity | |]; discriminate. }
    split.
    + split; [intros _; exact Hn | intros _; reflexivity].
    + cbn [app existsb Speech.is_removed orb].
      rewrite existsb_app, existsb_repeat_tick by reflexivity. cbn [orb].
      destruct (Speech.os_remove w); cbn; split;
        try (intros [_ H]; discriminate H); try discriminate; auto.
  - destruct (speak_fails w text Hp) as [e ->].
    split.
    + destruct (Speech.named_temporary_file w); cbn.
      * split; reflexivity.
      * split; discriminate.
      * split; discriminate.
    + split; [| intros [H _]; discriminate H].
      destruct (Speech.named_temporary_file w), (Speech.gtts w), (Speech.save w),
        (Speech.music_load w); cbn; discriminate.
Qed.

Lemma speak_temporary_file_witness :
  existsb Speech.is_created (Speech.speak offline (PStr "A")) = true /\
  existsb Speech.is_removed (Speech.speak offline (PStr "A")) <> true.
Proof.
  destruct (speak_temporary_file offline (PStr "A")) as [Hc Hr].
  split.
  - apply Hc. reflexivity.
  - intro H. apply Hr in H. destruct H as [H _]. discriminate H.
Defined.

(** X23.  [speak] prints at most one error message, and prints none exactly
    when every call up to playing succeeded and [os.remove] did not raise
    anything but [OSError]: an [OSError] on removal is swallowed silently.
    It polls the mixer only when playback started. *)
Theorem speak_messages (w : Speech.world) (text : pyval) :
  (List.length (filter Speech.is_printed (Speech.speak w text)) <= 1)%nat /\
  (existsb Speech.is_printed (Speech.speak w text) = false <->
   Speech.plays w = true /\ forall msg, Speech.os_remove w <> Speech.RaisesOther msg) /\
  List.length (filter (fun ev => match ev with Speech.Tick => true | _ => false end)
                      (Speech.speak w text))
  = (if Speech.plays w then Speech.busy_polls w else 0%nat).
Proof.
  destruct (Speech.plays w) eqn:Hp.
  - rewrite (speak_plays w text Hp). split; [| split].
    + cbn [app filter Speech.is_printed].
      rewrite filter_app, filter_repeat_tick by reflexivity.
      destruct (Speech.os_remove w); cbn; lia.
    + cbn [app existsb Speech.is_printed orb].
      rewrite existsb_app, existsb_repeat_tick by reflexivity. cbn [orb].
      destruct (Speech.os_remove w); cbn; split;
        try (intros _; split; [reflexivity | intros m; discriminate]);
        try reflexivity; try discriminate.
      intros [_ H]. exfalso. exact (H msg eq_refl).
    + cbn [app filter]. rewrite !filter_app.
      assert (Ht : filter (fun ev => match ev with Speech.Tick => true | _ => false end)
                          (repeat Speech.Tick (Speech.busy_polls w))
                   = repeat Speech.Tick (Speech.busy_polls w)).
      { induction (Speech.busy_polls w) as [| n IH]; simpl; [reflexivity |].
        now rewrite IH. }
      rewrite Ht, length_app, repeat_length.
      destruct (Speech.os_remove w); cbn; lia.
  - destruct (speak_fails w text Hp) as [e ->]. split; [| split].
    + destruct (Speech.named_temporary_file w), (Speech.gtts w), (Speech.save w),
        (Speech.music_load w); cbn; lia.
    + split; [| intros [H _]; discriminate H].
      destruct (Speech.named_temporary_file w), (Speech.gtts w), (Speech.save w),
        (Speech.music_load w); cbn; discriminate.
    + destruct (Speech.named_temporary_file w), (Speech.gtts w), (Speech.save w),
        (Speech.music_load w); cbn; reflexivity.
Qed.

Lemma speak_messages_witness :
  existsb Speech.is_printed (Speech.speak online (PStr "A")) = false.
Proof.
  apply (speak_messages online (PStr "A")).
  split; [reflexivity | intros msg; discriminate].
Defined.
